(** * Lattice-surgery path search: the constrained BFS and its helpers

    A shallow embedding of [src/utils/constraints.py] and
    [src/scripts/pathfinder.py], followed by the properties of the search,
    the type-compatibility oracle and the escalation driver.

    Conventions of the embedding:
    - a Python [int] is a [Z]; a coordinate is a triple of [Z];
    - a kind is a [string] of ASCII characters (the code only ever builds
      kinds from the letters x, z, o and h);
    - a [dict] keyed by blocks is a [gmap]; a Python [list] is a [list];
    - a call either returns a value or raises: [outcome];
    - the obstacle list is one object shared by the driver and the search:
      the search takes it and gives it back (explicit state passing). *)

From stdpp Require Import gmap strings list fin_maps.
From Stdlib Require Import ZArith Ascii.

Open Scope Z_scope.

(** ** Python values and outcomes *)

Definition Coord : Type := Z * Z * Z.
Definition Block : Type := Coord * string.

Inductive exn : Type :=
| TypeError
| ValueError
| KeyError.

(** What running a piece of code gives: a value, an exception, or nothing
    yet because the loop bound of the embedding ran out ([OutOfFuel] is not
    a Python outcome; it only marks that more fuel is needed). *)
Inductive outcome (A : Type) : Type :=
| Returns (a : A)
| Raises (e : exn)
| OutOfFuel.

Arguments Returns {A} a.
Arguments Raises {A} e.
Arguments OutOfFuel {A}.

#[global] Instance exn_eq_dec : EqDecision exn.
Proof. solve_decision. Defined.

#[global] Instance outcome_eq_dec {A : Type} `{EqDecision A} : EqDecision (outcome A).
Proof. solve_decision. Defined.

#[global] Instance outcome_ret : MRet outcome := fun A a => Returns a.

#[global] Instance outcome_bind : MBind outcome := fun A B f m =>
  match m with
  | Returns a => f a
  | Raises e => Raises e
  | OutOfFuel => OutOfFuel
  end.

(** A [for] loop whose body updates a state and may raise. *)
Fixpoint for_each {A S : Type} (body : S -> A -> outcome S) (l : list A) (s : S)
  : outcome S :=
  match l with
  | [] => Returns s
  | x :: l' => s' ← body s x; for_each body l' s'
  end.

(** [d[k]] on a dict: [KeyError] when the key is absent. *)
Definition subscript {V : Type} (d : gmap Block V) (k : Block) : outcome V :=
  match d !! k with
  | Some v => Returns v
  | None => Raises KeyError
  end.

(** [x in l] on a list. *)
Definition py_in (x : Coord) (l : list Coord) : bool := bool_decide (x ∈ l).

(** [l.remove(x)] on a list that holds [x]: the first occurrence goes. *)
Fixpoint remove_first (x : Coord) (l : list Coord) : list Coord :=
  match l with
  | [] => []
  | y :: l' => if decide (x = y) then l' else y :: remove_first x l'
  end.

(** [if x in l: l.remove(x)] *)
Definition remove_if_present (x : Coord) (l : list Coord) : list Coord :=
  if py_in x l then remove_first x l else l.

(** [l.index(x)]: [ValueError] when [x] is not in the list. *)
Fixpoint list_index (x : bool) (l : list bool) : outcome nat :=
  match l with
  | [] => Raises ValueError
  | y :: l' => if bool_decide (x = y) then Returns 0%nat
               else i ← list_index x l'; Returns (S i)
  end.

(** *** Strings

    A Python [str] is a sequence of code points. A [string] here is such a
    sequence with every code point below 256, one [ascii] for each code
    point (not a byte of an encoding): [String.length] is [len] and
    [str_take], [str_drop] slice by code points. The block kinds and ZX
    types of the program are written with ASCII letters and lie well inside
    this range. A [str] with a code point from 256 on is not represented;
    only there does [str.lower()] look at the letters around the one it
    maps (the capital sigma) or give more than one code point for one (the
    dotted capital I). *)

(** [c.lower()] for one code point below 256. The capital letters are A to
    Z (65 to 90) and those of Latin-1 (192 to 222, the multiplication sign
    215 apart); each has its small letter 32 places on. Every other code
    point is its own lower case. *)
Definition ascii_lower (c : ascii) : ascii :=
  let n := nat_of_ascii c in
  if ((65 <=? n)%nat && (n <=? 90)%nat)
     || ((192 <=? n)%nat && (n <=? 222)%nat && negb (n =? 215)%nat)
  then ascii_of_nat (n + 32) else c.

(** [s.lower()]: below 256 Python lowers a string code point by code
    point. *)
Fixpoint str_lower (s : string) : string :=
  match s with
  | EmptyString => EmptyString
  | String c s' => String (ascii_lower c) (str_lower s')
  end.

(** [s[:n]] *)
Fixpoint str_take (n : nat) (s : string) : string :=
  match n, s with
  | S n', String c s' => String c (str_take n' s')
  | _, _ => EmptyString
  end.

(** [s[n:]] *)
Fixpoint str_drop (n : nat) (s : string) : string :=
  match n, s with
  | S n', String _ s' => str_drop n' s'
  | _, _ => s
  end.

(** [c in s] for a one-character pattern. *)
Fixpoint str_has (c : ascii) (s : string) : bool :=
  match s with
  | EmptyString => false
  | String c' s' => bool_decide (c = c') || str_has c s'
  end.

(** [zip(a, b)] on two coordinates. *)
Definition zip_coords (a b : Coord) : list (Z * Z) :=
  let '(ax, ay, az) := a in
  let '(bx, b_y, bz) := b in
  [(ax, bx); (ay, b_y); (az, bz)].

(** *** Call binding

    How Python binds the arguments of a call to the parameters of a [def]
    without defaults, [*args] or [**kwargs]: the positional arguments take
    the first parameters, each keyword must name one of the others, and no
    parameter may be left without a value. Anything else is a
    [TypeError], raised before the body runs. *)
Definition bind_arguments (params : list string) (n_positional : nat)
    (keywords : list string) : outcome unit :=
  if bool_decide (n_positional ≤ length params)%nat
     && forallb (fun k => bool_decide (k ∈ drop n_positional params)) keywords
     && forallb (fun p => bool_decide (p ∈ keywords)) (drop n_positional params)
  then Returns ()
  else Raises TypeError.

(** ** The helpers imported from outside [src/]

    [utils/utils.py] ([check_is_exit]) and [utils/utils_greedy_bfs.py]
    ([is_move_allowed], [rotate_o_types], [adjust_hadamards_direction]) are
    not among the source files. They are taken as parameters, assumed to be
    total and free of side effects; [set_order] is the order in which
    CPython iterates a set built from a list (line 364 of pathfinder.py). *)
Class Utils : Type := {
  check_is_exit : Coord -> string -> Coord -> bool;
  is_move_allowed : Coord -> Coord -> bool;
  rotate_o_types : string -> string;
  adjust_hadamards_direction : string -> string;
  set_order : list Coord -> list Coord
}.

(** ** [src/utils/constraints.py] *)

Module Constraints.
Section WithUtils.
Context {U : Utils}.

Definition check_face_match (source_coord : Coord) (source_kind : string)
    (target_coord : Coord) (target_kind : string) : outcome bool :=
  let source_kind := str_take 3 (str_lower source_kind) in
  let target_kind := str_take 3 (str_lower target_kind) in
  let displacements := map (fun p => p.2 - p.1) (zip_coords source_coord target_coord) in
  let axis_displacement := map (fun axis => negb (axis =? 0)) displacements in
  idx ← list_index true axis_displacement;
  let new_source_kind := str_take idx source_kind +:+ str_drop (S idx) source_kind in
  let new_target_kind := str_take idx target_kind +:+ str_drop (S idx) target_kind in
  if negb (String.eqb new_source_kind new_target_kind) then Returns false
  else Returns true.

Definition check_cube_match (current_pos : Coord) (current_kind : string)
    (next_pos : Coord) (next_kind : string) : bool :=
  let current_kind := str_lower current_kind in
  let next_kind := str_lower next_kind in
  if negb (check_is_exit current_pos current_kind next_pos) then false
  else if negb (check_is_exit next_pos next_kind current_pos) then false
  else true.

Definition all_cube_kinds : list string :=
  ["xxz"; "xzz"; "xzx"; "zzx"; "zxx"; "zxz"].

Definition all_pipe_kinds : list string :=
  ["zxo"; "xzo"; "oxz"; "ozx"; "xoz"; "zox";
   "zxoh"; "xzoh"; "oxzh"; "ozxh"; "xozh"; "zoxh"].

(** The loop of lines 116-119: keep the kinds whose face check passes; a
    face check that raises ends the loop with its exception. *)
Fixpoint keep_face_matches (current_pos : Coord) (current_kind : string)
    (next_pos : Coord) (possible_kinds : list string) : outcome (list string) :=
  match possible_kinds with
  | [] => Returns []
  | next_kind :: rest =>
      ok ← check_face_match current_pos current_kind next_pos next_kind;
      kept ← keep_face_matches current_pos current_kind next_pos rest;
      Returns (if ok : bool then next_kind :: kept else kept)
  end.

Definition get_valid_next_kinds (current_pos : Coord) (current_kind : string)
    (next_pos : Coord) : outcome (list string) :=
  let possible_kinds :=
    if str_has "o" current_kind
    then filter (fun next_kind =>
                   check_cube_match current_pos current_kind next_pos next_kind = true)
                all_cube_kinds
    else filter (fun next_kind =>
                   check_cube_match current_pos current_kind next_pos next_kind = true)
                all_pipe_kinds in
  keep_face_matches current_pos current_kind next_pos possible_kinds.

(** The parameters of [def get_valid_next_kinds], line 75. *)
Definition get_valid_next_kinds_params : list string :=
  ["current_pos"; "current_kind"; "next_pos"].

End WithUtils.
End Constraints.

(** ** [src/scripts/pathfinder.py] *)

Module Pathfinder.
Import Constraints.
Section WithUtils.
Context {U : Utils}.

(** *** [bfs_extended_3d] *)

(** [(found, length, path)] as the search returns it. *)
Definition search_result : Type := bool * Z * option (list Block).

(** The local variables the [while] loop of the search updates. *)
Record search_state : Type := SearchState {
  queue : list Block;
  visited : gmap Block Z;
  path_length : gmap Block Z;
  path : gmap Block (list Block);
  hadamard_flag : bool
}.

Definition with_queue (q : list Block) (st : search_state) : search_state :=
  SearchState q (visited st) (path_length st) (path st) (hadamard_flag st).

Definition with_hadamard_flag (b : bool) (st : search_state) : search_state :=
  SearchState (queue st) (visited st) (path_length st) (path st) b.

(** Lines 284-289: record a new or shorter state and put it on the queue. *)
Definition record_state (next_node_info : Block) (new_path_length : Z)
    (new_path : list Block) (st : search_state) : search_state :=
  SearchState (queue st ++ [next_node_info])
              (<[next_node_info := new_path_length]> (visited st))
              (<[next_node_info := new_path_length]> (path_length st))
              (<[next_node_info := new_path]> (path st))
              (hadamard_flag st).

(** [abs(x - end_x) + abs(y - end_y) + abs(z - end_z)] *)
Definition manhattan (a b : Coord) : Z :=
  let '(x, y, z) := a in
  let '(end_x, end_y, end_z) := b in
  Z.abs (x - end_x) + Z.abs (y - end_y) + Z.abs (z - end_z).

(** [sum([p[0] + p[1] if p[0] != p[1] else 0 for p in list(zip(a, b))])] *)
Definition signed_sum (a b : Coord) : Z :=
  foldr Z.add 0
    (map (fun p : Z * Z => if bool_decide (p.1 ≠ p.2) then p.1 + p.2 else 0)
         (zip_coords a b)).

Definition spatial_moves : list Coord :=
  [(1, 0, 0); (-1, 0, 0); (0, 1, 0); (0, -1, 0); (0, 0, 1); (0, 0, -1)].

(** The call of lines 252-254, as written there: three positional arguments
    and the keyword [hadamard_flag]. *)
Definition call_get_valid_next_kinds (current_coords : Coord)
    (current_type : string) (next_coords : Coord) (flag : bool)
  : outcome (list string) :=
  _ ← bind_arguments get_valid_next_kinds_params 3 ["hadamard_flag"];
  get_valid_next_kinds current_coords current_type next_coords.

(** Lines 256-289: the body of [for next_type in possible_next_types]. *)
Definition visit_next (forbidden_cords : list Coord) (current_node_info : Block)
    (current_path_coords : list Coord) (intermediate_pos : option Coord)
    (next_coords : Coord) (st : search_state) (next_type : string)
  : outcome search_state :=
  let current_coords := current_node_info.1 in
  let next_type :=
    if hadamard_flag st && str_has "o" next_type then
      let next_type := next_type +:+ "h" in
      if signed_sum current_coords next_coords <? 0
      then rotate_o_types next_type
      else next_type
    else next_type in
  let next_node_info : Block := (next_coords, next_type) in
  if negb (py_in next_coords current_path_coords)
     && negb (py_in next_coords forbidden_cords)
     && match intermediate_pos with
        | None => true
        | Some pos => bool_decide (next_coords ≠ pos)
        end
  then
    old_length ← subscript (path_length st) current_node_info;
    let new_path_length := old_length + 1 in
    if match visited st !! next_node_info with
       | None => true
       | Some seen => new_path_length <? seen
       end
    then
      old_path ← subscript (path st) current_node_info;
      Returns (record_state next_node_info new_path_length
                            (old_path ++ [next_node_info]) st)
    else Returns st
  else Returns st.

(** Lines 215-289: the body of [for dx, dy, dz in spatial_moves]. The loop
    carries [current_type] along with the search state, because the
    Hadamard branch reassigns it for the directions that follow. *)
Definition expand (source_node : Block) (forbidden_cords : list Coord)
    (current_node_info : Block) (scale : Z)
    (acc : string * search_state) (move : Coord)
  : outcome (string * search_state) :=
  let '(current_type, st) := acc in
  let current_coords := current_node_info.1 in
  let '(x, y, z) := current_coords in
  let '(dx, dy, dz) := move in
  let next_coords : Coord := (x + dx * scale, y + dy * scale, z + dz * scale) in
  here ← subscript (path st) current_node_info;
  let current_path_coords := map fst here in
  let intermediate_pos : option Coord :=
    if str_has "o" current_type && (scale =? 2)
    then Some (x + dx * 1, y + dy * 1, z + dz * 1)
    else None in
  if match intermediate_pos with
     | Some pos => py_in pos current_path_coords || py_in pos forbidden_cords
     | None => false
     end
  then Returns acc
  else
    let '(current_type, st) :=
      if str_has "h" current_type then
        let st := with_hadamard_flag false st in
        let current_type :=
          if signed_sum source_node.1 current_coords <? 0
          then rotate_o_types (adjust_hadamards_direction current_type)
          else rotate_o_types current_type in
        (str_take 3 current_type, st)
      else (current_type, st) in
    possible_next_types ←
      call_get_valid_next_kinds current_coords current_type next_coords
                                (hadamard_flag st);
    st ← for_each (visit_next forbidden_cords current_node_info
                              current_path_coords intermediate_pos next_coords)
                  possible_next_types st;
    Returns (current_type, st).

Definition failure : search_result := (false, -1, None).

(** Lines 184-291: [while queue: ...] and the final [return]. *)
Fixpoint bfs_while (source_node : Block) (end_coords : Coord) (end_type : string)
    (forbidden_cords : list Coord) (initial_manhattan_distance : Z)
    (fuel : nat) (st : search_state) {struct fuel} : outcome search_result :=
  match queue st with
  | [] => Returns failure
  | current_node_info :: rest =>
      match fuel with
      | O => OutOfFuel
      | S fuel' =>
          let st := with_queue rest st in
          let '(current_coords, current_type) := current_node_info in
          let current_manhattan_distance := manhattan current_coords end_coords in
          if 6 * initial_manhattan_distance <? current_manhattan_distance
          then Returns failure
          else if bool_decide (current_coords = end_coords)
                  && (bool_decide (end_type = "ooo")
                      || bool_decide (current_type = end_type))
          then
            len ← subscript (path_length st) current_node_info;
            found ← subscript (path st) current_node_info;
            Returns (true, len, Some found)
          else
            let scale := if str_has "o" current_type then 2 else 1 in
            acc ← for_each (expand source_node forbidden_cords current_node_info scale)
                           spatial_moves (current_type, st);
            bfs_while source_node end_coords end_type forbidden_cords
                      initial_manhattan_distance fuel' acc.2
      end
  end.

(** The state the loop starts from, lines 173-176. *)
Definition initial_state (source_node : Block) (flag : bool) : search_state :=
  SearchState [source_node] {[source_node := 0]} {[source_node := 0]}
              {[source_node := [source_node]]} flag.

(** The obstacle list as lines 168-171 leave it. *)
Definition without_endpoints (start_coords end_coords : Coord)
    (forbidden_cords : list Coord) : list Coord :=
  remove_if_present end_coords (remove_if_present start_coords forbidden_cords).

(** The search. It returns its result together with the obstacle list as the
    call leaves it: the list is the caller's object, changed in place. *)
Definition bfs_extended_3d (fuel : nat) (source_node target_node : Block)
    (forbidden_cords : list Coord) (flag : bool)
  : outcome search_result * list Coord :=
  let '(start_coords, _) := source_node in
  let '(end_coords, end_type) := target_node in
  let forbidden_cords := without_endpoints start_coords end_coords forbidden_cords in
  let initial_manhattan_distance := manhattan start_coords end_coords in
  (bfs_while source_node end_coords end_type forbidden_cords
             initial_manhattan_distance fuel (initial_state source_node flag),
   forbidden_cords).

(** *** The auxiliary operations *)

(** [min(...)] and [max(...)] over a generator that yields [x] first. *)
Definition min_of (x : Z) (rest : list Z) : Z := foldl Z.min x rest.
Definition max_of (x : Z) (rest : list Z) : Z := foldl Z.max x rest.

Definition determine_grid_size (start_coords end_coords : Coord)
    (obstacle_coords : option (list Coord)) (margin : Z)
  : Z * Z * Z * Z * Z * Z :=
  let all_coords :=
    match obstacle_coords with
    | Some (c :: l) => [end_coords] ++ (c :: l)
    | _ => [end_coords]
    end in
  let xs := map (fun coord : Coord => coord.1.1) all_coords in
  let ys := map (fun coord : Coord => coord.1.2) all_coords in
  let zs := map (fun coord : Coord => coord.2) all_coords in
  (min_of start_coords.1.1 xs - margin, max_of start_coords.1.1 xs + margin,
   min_of start_coords.1.2 ys - margin, max_of start_coords.1.2 ys + margin,
   min_of start_coords.2 zs - margin, max_of start_coords.2 zs + margin).

(** The three search loops of [generate_tentative_target_position] share
    their body: the first candidate inside the box, off the obstacles and
    allowed as a move. *)
Definition first_free (source_coords : Coord) (bounds : Z * Z * Z * Z * Z * Z)
    (obstacle_coords : list Coord) (candidates : list Coord) : option Coord :=
  let '(min_x, max_x, min_y, max_y, min_z, max_z) := bounds in
  List.find
    (fun t : Coord =>
       let '(tx, ty, tz) := t in
       (min_x <=? tx) && (tx <=? max_x) && (min_y <=? ty) && (ty <=? max_y)
       && (min_z <=? tz) && (tz <=? max_z)
       && negb (py_in t obstacle_coords) && is_move_allowed source_coords t)
    candidates.

Definition potential_targets_level_1 (s : Coord) : list Coord :=
  let '(sx, sy, sz) := s in
  [(sx + 3, sy, sz); (sx - 3, sy, sz); (sx, sy + 3, sz);
   (sx, sy - 3, sz); (sx, sy, sz + 3); (sx, sy, sz - 3)].

(** Lines 347-361, before the duplicates are removed. *)
Definition potential_targets_level_2 (s : Coord) : list Coord :=
  let '(sx, sy, sz) := s in
  flat_map (fun dx =>
    flat_map (fun dy => [(sx + dx, sy + dy, sz); (sx + dy, sy + dx, sz)]) [-3; 3]
    ++ flat_map (fun dz => [(sx + dx, sy, sz + dz); (sx + dz, sy, sz + dx)]) [-3; 3]
    ++ flat_map (fun dy =>
         flat_map (fun dz => [(sx, sy + dy, sz + dz); (sx, sy + dz, sz + dy)]) [-3; 3])
         [-3; 3])
    [-3; 3].

Definition potential_targets_level_3 (s : Coord) : list Coord :=
  let '(sx, sy, sz) := s in
  flat_map (fun dx =>
    flat_map (fun dy =>
      flat_map (fun dz =>
        if negb (dx =? 0) || negb (dy =? 0) || negb (dz =? 0)
        then [(sx + dx, sy + dy, sz + dz)] else [])
        [-3; 3])
      [-3; 3])
    [-3; 3].

Definition generate_tentative_target_position (source_node : Block)
    (bounds : Z * Z * Z * Z * Z * Z) (obstacle_coords : option (list Coord))
    (overwrite_target_coords : option Coord) : option Coord :=
  match overwrite_target_coords with
  | Some c => Some c
  | None =>
      let obstacle_coords := default [] obstacle_coords in
      let source_coords := source_node.1 in
      match first_free source_coords bounds obstacle_coords
                       (potential_targets_level_1 source_coords) with
      | Some t => Some t
      | None =>
          match first_free source_coords bounds obstacle_coords
                           (set_order (potential_targets_level_2 source_coords)) with
          | Some t => Some t
          | None => first_free source_coords bounds obstacle_coords
                               (potential_targets_level_3 source_coords)
          end
      end
  end.

Definition X_family : list string := ["xxz"; "xzx"; "zxx"].
Definition Z_family : list string := ["xzz"; "zzx"; "zxz"].
Definition BOUNDARY : list string := ["ooo"].
Definition SIMPLE : list string := ["zxo"; "xzo"; "oxz"; "ozx"; "xoz"; "zox"].
Definition HADAMARD : list string :=
  ["zxoh"; "xzoh"; "oxzh"; "ozxh"; "xozh"; "zoxh"].

(** Python's truth value of an [Optional[str]]: [None] and the empty string
    are false. *)
Definition truthy (o : option string) : bool :=
  match o with
  | Some (String _ _) => true
  | _ => false
  end.

Definition generate_tentative_target_types (target_node_zx_type : string)
    (overwrite_target_type : option string) : list string :=
  match overwrite_target_type with
  | Some (String c k) => [String c k]
  | _ =>
      if bool_decide (target_node_zx_type ∈ ["X"; "Z"]) then
        if bool_decide (target_node_zx_type = "X") then X_family else Z_family
      else if bool_decide (target_node_zx_type = "O") then BOUNDARY
      else if bool_decide (target_node_zx_type = "SIMPLE") then SIMPLE
      else if bool_decide (target_node_zx_type = "HADAMARD") then HADAMARD
      else [target_node_zx_type]
  end.

(** *** [run_bfs_for_all_potential_target_nodes] *)

(** The local variables of the driver. [obstacle_coords] is the list every
    search of the round receives and changes. [searches] is a ghost field:
    the results of the searches run so far, oldest first; no code reads it. *)
Record round_state : Type := RoundState {
  all_paths_from_round : list (option (list Block));
  min_path_length : option Z;
  path_found : bool;
  round_length : option Z;
  round_path : option (list Block);
  obstacle_coords : list Coord;
  searches : list search_result
}.

(** Lines 120-127: what the driver does with the result of one search. *)
Definition keep_shortest (candidate : search_result) (rs : round_state)
  : round_state :=
  let '(candidate_path_found, candidate_length, candidate_path) := candidate in
  if candidate_path_found then
    let shorter :=
      match min_path_length rs with
      | None => true
      | Some shortest => candidate_length <? shortest
      end in
    RoundState (all_paths_from_round rs ++ [candidate_path])
               (if shorter then Some candidate_length else min_path_length rs)
               true
               (if shorter then Some candidate_length else round_length rs)
               (if shorter then candidate_path else round_path rs)
               (obstacle_coords rs) (searches rs)
  else rs.

(** Lines 108-127: the body of [for potential_target_type in ...]. An
    exception of the search is not caught: it ends the driver. *)
Definition try_target_type (fuel : nat) (source_node : Block)
    (tentative_target_position : Coord) (flag : bool)
    (rs : round_state) (potential_target_type : string) : outcome round_state :=
  let target_node : Block := (tentative_target_position, potential_target_type) in
  let '(result, obstacles) :=
    bfs_extended_3d fuel source_node target_node (obstacle_coords rs) flag in
  candidate ← result;
  Returns (keep_shortest candidate
             (RoundState (all_paths_from_round rs) (min_path_length rs)
                         (path_found rs) (round_length rs) (round_path rs)
                         obstacles (searches rs ++ [candidate]))).

(** Lines 77-131: [for attempt in range(attempts_per_distance)]. *)
Fixpoint attempts (fuel : nat) (source_node : Block) (target_node_zx_type : string)
    (distance max_distance : Z) (overwrite_target_node : option Coord * option string)
    (bounds : Z * Z * Z * Z * Z * Z) (flag : bool)
    (remaining : nat) (rs : round_state) : outcome round_state :=
  match remaining with
  | O => Returns rs
  | S remaining' =>
      if (max_distance <? distance) || path_found rs then Returns rs
      else
        match generate_tentative_target_position source_node bounds
                (Some (obstacle_coords rs)) overwrite_target_node.1 with
        | None =>
            attempts fuel source_node target_node_zx_type distance max_distance
                     overwrite_target_node bounds flag remaining' rs
        | Some tentative_target_position =>
            let potential_target_types :=
              generate_tentative_target_types target_node_zx_type
                (if truthy overwrite_target_node.2 then overwrite_target_node.2
                 else None) in
            rs' ← for_each (try_target_type fuel source_node
                                            tentative_target_position flag)
                           potential_target_types rs;
            attempts fuel source_node target_node_zx_type distance max_distance
                     overwrite_target_node bounds flag remaining' rs'
        end
  end.

(** The driver up to its [return], with the ghost log still in the state.
    [fuel] bounds the loop of each search. *)
Definition run_round (fuel : nat) (source_node : Block) (target_node_zx_type : string)
    (distance max_distance attempts_per_distance : Z)
    (overwrite_target_node : option Coord * option string)
    (occupied_coords : list Coord) (flag : bool) : outcome round_state :=
  let start_coords := source_node.1 in
  let obstacles := remove_if_present start_coords occupied_coords in
  let bounds :=
    determine_grid_size start_coords (default (0, 0, 0) overwrite_target_node.1)
                        (Some obstacles) 5 in
  attempts fuel source_node target_node_zx_type distance max_distance
           overwrite_target_node bounds flag (Z.to_nat attempts_per_distance)
           (RoundState [] None false None None obstacles []).

(** [(path_found, length, path, all_paths_from_round)] *)
Definition run_bfs_for_all_potential_target_nodes (fuel : nat) (source_node : Block)
    (target_node_zx_type : string)
    (distance max_distance attempts_per_distance : Z)
    (overwrite_target_node : option Coord * option string)
    (occupied_coords : list Coord) (flag : bool)
  : outcome (bool * option Z * option (list Block) * list (option (list Block))) :=
  rs ← run_round fuel source_node target_node_zx_type distance max_distance
                 attempts_per_distance overwrite_target_node occupied_coords flag;
  Returns (path_found rs, round_length rs, round_path rs, all_paths_from_round rs).

(** *** The driver, with the search as a parameter

    Lines 16-134 once more, with the function that lines 112-117 call left
    open: [search source_node target_node forbidden_cords hadamard_flag] is
    the outcome of that call and the obstacle list it leaves behind. What
    lines 120-127 keep of a result does not depend on how the result was
    found; in this form the bookkeeping can be run on results of any
    length. With [bfs_extended_3d fuel] for [search] these are the
    definitions above. *)
Definition search_function : Type :=
  Block -> Block -> list Coord -> bool -> outcome search_result * list Coord.

(** Lines 108-127. *)
Definition try_target_type_with (search : search_function) (source_node : Block)
    (tentative_target_position : Coord) (flag : bool)
    (rs : round_state) (potential_target_type : string) : outcome round_state :=
  let target_node : Block := (tentative_target_position, potential_target_type) in
  let '(result, obstacles) :=
    search source_node target_node (obstacle_coords rs) flag in
  candidate ← result;
  Returns (keep_shortest candidate
             (RoundState (all_paths_from_round rs) (min_path_length rs)
                         (path_found rs) (round_length rs) (round_path rs)
                         obstacles (searches rs ++ [candidate]))).

(** Lines 77-131. *)
Fixpoint attempts_with (search : search_function) (source_node : Block)
    (target_node_zx_type : string) (distance max_distance : Z)
    (overwrite_target_node : option Coord * option string)
    (bounds : Z * Z * Z * Z * Z * Z) (flag : bool)
    (remaining : nat) (rs : round_state) : outcome round_state :=
  match remaining with
  | O => Returns rs
  | S remaining' =>
      if (max_distance <? distance) || path_found rs then Returns rs
      else
        match generate_tentative_target_position source_node bounds
                (Some (obstacle_coords rs)) overwrite_target_node.1 with
        | None =>
            attempts_with search source_node target_node_zx_type distance
                          max_distance overwrite_target_node bounds flag
                          remaining' rs
        | Some tentative_target_position =>
            let potential_target_types :=
              generate_tentative_target_types target_node_zx_type
                (if truthy overwrite_target_node.2 then overwrite_target_node.2
                 else None) in
            rs' ← for_each (try_target_type_with search source_node
                                                 tentative_target_position flag)
                           potential_target_types rs;
            attempts_with search source_node target_node_zx_type distance
                          max_distance overwrite_target_node bounds flag
                          remaining' rs'
        end
  end.

(** Lines 56-131. *)
Definition run_round_with (search : search_function) (source_node : Block)
    (target_node_zx_type : string)
    (distance max_distance attempts_per_distance : Z)
    (overwrite_target_node : option Coord * option string)
    (occupied_coords : list Coord) (flag : bool) : outcome round_state :=
  let start_coords := source_node.1 in
  let obstacles := remove_if_present start_coords occupied_coords in
  let bounds :=
    determine_grid_size start_coords (default (0, 0, 0) overwrite_target_node.1)
                        (Some obstacles) 5 in
  attempts_with search source_node target_node_zx_type distance max_distance
                overwrite_target_node bounds flag (Z.to_nat attempts_per_distance)
                (RoundState [] None false None None obstacles []).

(** Line 134. *)
Definition run_bfs_with (search : search_function) (source_node : Block)
    (target_node_zx_type : string)
    (distance max_distance attempts_per_distance : Z)
    (overwrite_target_node : option Coord * option string)
    (occupied_coords : list Coord) (flag : bool)
  : outcome (bool * option Z * option (list Block) * list (option (list Block))) :=
  rs ← run_round_with search source_node target_node_zx_type distance max_distance
                      attempts_per_distance overwrite_target_node occupied_coords
                      flag;
  Returns (path_found rs, round_length rs, round_path rs, all_paths_from_round rs).

(** *** [get_coords_occupied_by_blocks] *)

(** Lines 511-524: the cell a pipe reaches beyond itself, on the side away
    from the block before it. Each test looks at one axis only. *)
Definition extended_coords (prev_node_coords current_node_coords : Coord)
  : option Coord :=
  let '(cx, cy, cz) := current_node_coords in
  let '(px, py, pz) := prev_node_coords in
  if bool_decide (cx = px + 1) then Some (cx + 1, cy, cz)
  else if bool_decide (cx = px - 1) then Some (cx - 1, cy, cz)
  else if bool_decide (cy = py + 1) then Some (cx, cy + 1, cz)
  else if bool_decide (cy = py - 1) then Some (cx, cy - 1, cz)
  else if bool_decide (cz = pz + 1) then Some (cx, cy, cz + 1)
  else if bool_decide (cz = pz - 1) then Some (cx, cy, cz - 1)
  else None.

(** Lines 494-527: the body of [for i, block in enumerate(...)]. An entry of
    the structure may be [None]; such an entry is false for [if]. *)
Definition occupy_step (preexistent_structure : list (option Block))
    (obstacle_coords : gset Coord) (i : nat) : gset Coord :=
  if bool_decide (0 < i)%nat then
    match preexistent_structure !! i, preexistent_structure !! (i - 1)%nat with
    | Some (Some (current_node_coords, current_node_type)),
      Some (Some (prev_node_coords, _)) =>
        let obstacle_coords := {[current_node_coords]} ∪ obstacle_coords in
        if str_has "o" current_node_type then
          match extended_coords prev_node_coords current_node_coords with
          | Some cell => {[cell]} ∪ obstacle_coords
          | None => obstacle_coords
          end
        else obstacle_coords
    | _, _ => obstacle_coords
    end
  else obstacle_coords.

(** The set the function has built when it reaches its last line. *)
Definition occupied_set (preexistent_structure : list (option Block))
  : gset Coord :=
  match preexistent_structure with
  | [] => ∅
  | first_block :: _ =>
      foldl (occupy_step preexistent_structure)
            (match first_block with
             | Some (first_block_coords, _) => {[first_block_coords]}
             | None => ∅
             end)
            (seq 0 (length preexistent_structure))
  end.

(** [list(obstacle_coords)]: the elements of the set, each once. The order
    is that of the set's iteration, which this embedding does not tie to
    CPython's; nothing below depends on it. *)
Definition get_coords_occupied_by_blocks
    (preexistent_structure : list (option Block)) : list Coord :=
  elements (occupied_set preexistent_structure).

End WithUtils.
End Pathfinder.

(** ** An instance of the outside helpers

    Modelled from the spec: [check_is_exit], [is_move_allowed],
    [rotate_o_types] and [adjust_hadamards_direction], whose files are not
    under [src/]. Section 4.4 of the spec only says that a block must expose
    an open face toward its neighbour and that a Hadamard kind is flipped and
    rotated; this instance fixes one reading of it so that the definitions
    above can be run on concrete inputs. Every theorem below is proved for
    all instances of [Utils] and depends on none of these choices. *)

(** The axis two coordinates differ on, when it is the only one. *)
Definition displacement_axis (a b : Coord) : option nat :=
  match map (fun p : Z * Z => negb (p.1 =? p.2)) (zip_coords a b) with
  | [true; false; false] => Some 0%nat
  | [false; true; false] => Some 1%nat
  | [false; false; true] => Some 2%nat
  | _ => None
  end.

(** How often a character occurs in a string. *)
Fixpoint str_count (c : ascii) (s : string) : nat :=
  match s with
  | EmptyString => 0%nat
  | String c' s' => ((if bool_decide (c = c') then 1 else 0) + str_count c s')%nat
  end.

(** A pipe opens along the axis that carries its o; a cube opens along the
    axes that carry the colour it shows twice. *)
Definition sample_check_is_exit (source_coord : Coord) (source_kind : string)
    (target_coord : Coord) : bool :=
  let kind := str_take 3 (str_lower source_kind) in
  match displacement_axis source_coord target_coord with
  | None => false
  | Some axis =>
      match String.get axis kind with
      | None => false
      | Some colour =>
          if str_has "o" kind then bool_decide (colour = "o"%char)
          else bool_decide (str_count colour kind = 2%nat)
      end
  end.

(** The first three symbols move one place to the right, a marker stays. *)
Definition sample_rotate_o_types (kind : string) : string :=
  match kind with
  | String a (String b (String c rest)) => String c (String a (String b rest))
  | _ => kind
  end.

(** The two colours trade places. *)
Fixpoint sample_adjust_hadamards_direction (kind : string) : string :=
  match kind with
  | EmptyString => EmptyString
  | String c rest =>
      String (if bool_decide (c = "x"%char) then "z"%char
              else if bool_decide (c = "z"%char) then "x"%char else c)
             (sample_adjust_hadamards_direction rest)
  end.

Definition sample_utils : Utils := {|
  check_is_exit := sample_check_is_exit;
  is_move_allowed := fun a b => bool_decide (a ≠ b);
  rotate_o_types := sample_rotate_o_types;
  adjust_hadamards_direction := sample_adjust_hadamards_direction;
  set_order := remove_dups
|}.

(** A search to run the driver on results of several lengths: the kind of
    the target decides the result, a path of 5 steps for xxz and of 2 steps
    for xzx and for zxx, no path for any other kind. The obstacle list is
    left as it came. *)
Definition sample_search : Pathfinder.search_function :=
  fun source_node target_node forbidden_cords _ =>
    let path := Some [source_node; target_node] in
    (Returns (if bool_decide (target_node.2 = "xxz") then (true, 5, path)
              else if bool_decide (target_node.2 = "xzx") then (true, 2, path)
              else if bool_decide (target_node.2 = "zxx") then (true, 2, path)
              else Pathfinder.failure),
     forbidden_cords).

(** ** The vocabulary of the properties *)

Import Constraints Pathfinder.

(** Two coordinates differ along exactly one axis. *)
Definition differ_on_one_axis (a b : Coord) : Prop :=
  let '(ax, ay, az) := a in
  let '(bx, b_y, bz) := b in
  (ax ≠ bx ∧ ay = b_y ∧ az = bz)
  ∨ (ax = bx ∧ ay ≠ b_y ∧ az = bz)
  ∨ (ax = bx ∧ ay = b_y ∧ az ≠ bz).

(** How often a coordinate occurs in a list. *)
Fixpoint occurrences (c : Coord) (l : list Coord) : nat :=
  match l with
  | [] => 0%nat
  | y :: l' => ((if decide (c = y) then 1 else 0) + occurrences c l')%nat
  end.

(** The list with every occurrence of a coordinate taken out. *)
Definition without (c : Coord) (l : list Coord) : list Coord :=
  filter (fun y => y ≠ c) l.

(** The paths of the successful results of a log of searches, in order. *)
Fixpoint successful_paths (log : list search_result) : list (option (list Block)) :=
  match log with
  | [] => []
  | (true, _, p) :: log' => p :: successful_paths log'
  | (false, _, _) :: log' => successful_paths log'
  end.

(** A string written with ASCII characters only (code points below 128),
    as the kinds of the program are. *)
Fixpoint is_ascii (s : string) : bool :=
  match s with
  | EmptyString => true
  | String c s' => (nat_of_ascii c <? 128)%nat && is_ascii s'
  end.

(** A property of the value a computation returns, if it returns one. *)
Definition on_return {A : Type} (P : A -> Prop) (o : outcome A) : Prop :=
  match o with
  | Returns a => P a
  | _ => True
  end.

Section Vocabulary.
Context {U : Utils}.

(** Both checks of the oracle on one candidate kind. *)
Definition passes_both_checks (current_pos : Coord) (current_kind : string)
    (next_pos : Coord) (next_kind : string) : Prop :=
  check_cube_match current_pos current_kind next_pos next_kind = true
  ∧ check_face_match current_pos current_kind next_pos next_kind = Returns true.

#[global] Instance passes_both_checks_dec cur kind next k :
  Decision (passes_both_checks cur kind next k).
Proof. unfold passes_both_checks. apply _. Defined.

(** The ZX types that have a family of their own. *)
Definition known_zx_types : list string := ["X"; "Z"; "O"; "SIMPLE"; "HADAMARD"].

(** Every path the search has recorded runs through the source coordinate. *)
Definition paths_from_source (start_coords : Coord) (st : search_state) : Prop :=
  forall k p, path st !! k = Some p -> start_coords ∈ map fst p.

(** A result that some search from the source returned. *)
Definition searched (fuel : nat) (source_node : Block) (flag : bool)
    (r : search_result) : Prop :=
  exists (target_node : Block) (obstacles : list Coord),
    (bfs_extended_3d fuel source_node target_node obstacles flag).1 = Returns r.

(** What holds of the driver's variables between two searches: the list of
    all paths is that of the successful searches so far, and the length and
    path kept are those of a shortest one. *)
Definition round_ok (fuel : nat) (source_node : Block) (flag : bool)
    (rs : round_state) : Prop :=
  Forall (searched fuel source_node flag) (searches rs)
  ∧ all_paths_from_round rs = successful_paths (searches rs)
  ∧ min_path_length rs = round_length rs
  ∧ match round_length rs with
    | None =>
        path_found rs = false ∧ round_path rs = None
        ∧ forall len p, (true, len, p) ∉ searches rs
    | Some shortest =>
        path_found rs = true
        ∧ (true, shortest, round_path rs) ∈ searches rs
        ∧ forall len p, (true, len, p) ∈ searches rs -> shortest ≤ len
    end.

(** A result that a search function returned for the source. *)
Definition searched_with (search : search_function) (source_node : Block)
    (flag : bool) (r : search_result) : Prop :=
  exists (target_node : Block) (obstacles : list Coord),
    (search source_node target_node obstacles flag).1 = Returns r.

(** What holds of the driver's variables between two searches, whatever the
    searches return: the list of all paths is that of the successful searches
    so far, and the length and path kept are those of the first shortest
    one: the successes before it are strictly longer, those after it are
    not shorter. *)
Definition round_keeps_first_shortest (search : search_function)
    (source_node : Block) (flag : bool) (rs : round_state) : Prop :=
  Forall (searched_with search source_node flag) (searches rs)
  ∧ all_paths_from_round rs = successful_paths (searches rs)
  ∧ min_path_length rs = round_length rs
  ∧ match round_length rs with
    | None =>
        path_found rs = false ∧ round_path rs = None
        ∧ forall len p, (true, len, p) ∉ searches rs
    | Some shortest =>
        path_found rs = true
        ∧ exists before after,
            searches rs = before ++ (true, shortest, round_path rs) :: after
            ∧ (forall len p, (true, len, p) ∈ before -> shortest < len)
            ∧ (forall len p, (true, len, p) ∈ after -> shortest ≤ len)
    end.

End Vocabulary.

(** The end of the proof that one direction of the expansion does not
    depend on the source being listed as an obstacle: whatever the oracle
    gives, the inner loop agrees on both lists ([inner] is that fact). *)
Ltac expand_agree_tail inner Hstart Hst :=
  destruct (call_get_valid_next_kinds _ _ _ _) as [kinds| |];
  cbn [mbind outcome_bind on_return]; [|done..];
  match goal with
  | |- for_each (visit_next _ ?cur ?on_path ?ip ?next) ?ks ?s ≫= _ = _ ∧ _ =>
      destruct (inner cur on_path ip next ks s Hstart) as [<- Hpaths];
      [exact Hst|];
      destruct (for_each _ ks s); cbn [mbind outcome_bind on_return]; done
  end.

(** ** More vocabulary: the auxiliary operations *)

Section MoreVocabulary.
Context {U : Utils}.

(** The three coordinates of a cell. *)
Definition cx (c : Coord) : Z := c.1.1.
Definition cy (c : Coord) : Z := c.1.2.
Definition cz (c : Coord) : Z := c.2.

(** A candidate target the position generator may return: inside the box,
    off the obstacles and allowed as a move from the source. *)
Definition candidate_ok (source_coords : Coord) (bounds : Z * Z * Z * Z * Z * Z)
    (obstacles : list Coord) (t : Coord) : Prop :=
  let '(min_x, max_x, min_y, max_y, min_z, max_z) := bounds in
  min_x ≤ cx t ∧ cx t ≤ max_x ∧ min_y ≤ cy t ∧ cy t ≤ max_y
  ∧ min_z ≤ cz t ∧ cz t ≤ max_z
  ∧ (t ∉ obstacles) ∧ is_move_allowed source_coords t = true.

(** All the candidates of the three tiers. *)
Definition all_candidates (source_coords : Coord) : list Coord :=
  potential_targets_level_1 source_coords
  ++ potential_targets_level_2 source_coords
  ++ potential_targets_level_3 source_coords.

(** On how many axes two cells differ. *)
Definition axes_moved (a b : Coord) : nat :=
  ((if bool_decide (cx a = cx b) then 0 else 1)
   + (if bool_decide (cy a = cy b) then 0 else 1)
   + (if bool_decide (cz a = cz b) then 0 else 1))%nat.

(** What a Python set keeps of the list it is built from: the same
    elements. *)
Definition set_order_keeps_elements : Prop :=
  forall (l : list Coord) (x : Coord), x ∈ set_order l <-> x ∈ l.

(** The neighbour of a cell in one of the six directions. *)
Definition neighbour (c move : Coord) : Coord :=
  (cx c + cx move, cy c + cy move, cz c + cz move).

(** The goal test of lines 194-196 on the source itself. *)
Definition source_is_goal (source_node target_node : Block) : Prop :=
  source_node.1 = target_node.1
  ∧ (target_node.2 = "ooo" ∨ source_node.2 = target_node.2).

(** What entry [S i] of a structure adds to the occupied cells: its own
    coordinate and, for a pipe, the cell beyond it; both only when the
    entry and the one before it are blocks. *)
Definition adds_cell (structure : list (option Block)) (i : nat) (c : Coord) : Prop :=
  exists prev_coords prev_kind coords kind,
    structure !! i = Some (Some (prev_coords, prev_kind))
    ∧ structure !! S i = Some (Some (coords, kind))
    ∧ (c = coords
       ∨ (str_has "o" kind = true ∧ extended_coords prev_coords coords = Some c)).

(** A pipe at the source whose six neighbouring cells are all obstacles of
    the search (after lines 168-171 took the endpoints out of the list). *)
Definition walled_in (source_node target_node : Block)
    (forbidden_cords : list Coord) : Prop :=
  str_has "o" source_node.2 = true
  ∧ forall move, move ∈ spatial_moves ->
      neighbour source_node.1 move
      ∈ without_endpoints source_node.1 target_node.1 forbidden_cords.

(** The driver's variables before its first search. *)
Definition empty_round (obstacles : list Coord) : round_state :=
  RoundState [] None false None None obstacles [].

(** Lines 120-127 applied to the results of a run of searches, in order. *)
Definition keep_all (candidates : list search_result) (rs : round_state)
  : round_state :=
  foldl (fun rs candidate => keep_shortest candidate rs) rs candidates.

End MoreVocabulary.

(** Finds an element in a list that is written out. *)
Ltac in_explicit_list :=
  repeat first [apply list_elem_of_here | apply list_elem_of_further].

(** * Properties *)

(** ** The face check *)

Lemma displacement_flags_sym (a b : Coord) :
  map (fun axis => negb (axis =? 0)) (map (fun p : Z * Z => p.2 - p.1) (zip_coords a b))
  = map (fun axis => negb (axis =? 0)) (map (fun p : Z * Z => p.2 - p.1) (zip_coords b a)).
Proof.
  destruct a as [[ax ay] az], b as [[bx b_y] bz]; simpl.
  assert (flip : forall u v : Z, (v - u =? 0) = (u - v =? 0)).
  { intros u v. destruct (Z.eqb_spec (v - u) 0), (Z.eqb_spec (u - v) 0); lia. }
  by rewrite (flip ax bx), (flip ay b_y), (flip az bz).
Qed.

Lemma check_face_match_sym (a : Coord) (kindA : string) (b : Coord) (kindB : string) :
  check_face_match a kindA b kindB = check_face_match b kindB a kindA.
Proof.
  unfold check_face_match.
  rewrite (displacement_flags_sym a b).
  destruct (list_index true _) as [idx| |]; simpl; try reflexivity.
  by rewrite String.eqb_sym.
Qed.

(** C9. For two coordinates that differ along exactly one axis and any two
    kinds, the face check gives the same answer in both directions:
    [check_face_match(a, kindA, b, kindB) == check_face_match(b, kindB, a, kindA)].
    (The check looks only at which axes differ, so the equation holds for
    every pair of coordinates; on equal coordinates both calls raise
    [ValueError].) *)
Theorem check_face_match_symmetric (a : Coord) (kindA : string) (b : Coord)
    (kindB : string) :
  differ_on_one_axis a b ->
  check_face_match a kindA b kindB = check_face_match b kindB a kindA
  ∧ exists answer : bool, check_face_match a kindA b kindB = Returns answer.
Proof.
  intros Haxis. split; [apply check_face_match_sym|].
  unfold check_face_match.
  destruct a as [[ax ay] az], b as [[bx b_y] bz]; simpl in *.
  destruct Haxis as [(Hx & -> & ->)|[(-> & Hy & ->)|(-> & -> & Hz)]].
  - destruct (Z.eqb_spec (bx - ax) 0); [lia|]. simpl.
    destruct (negb _); eauto.
  - rewrite Z.sub_diag. simpl.
    destruct (Z.eqb_spec (b_y - ay) 0); [lia|]. simpl.
    destruct (negb _); eauto.
  - rewrite !Z.sub_diag. simpl.
    destruct (Z.eqb_spec (bz - az) 0); [lia|]. simpl.
    destruct (negb _); eauto.
Qed.

Lemma check_face_match_symmetric_witness :
  differ_on_one_axis (0, 0, 0) (0, 2, 0)
  ∧ check_face_match (0, 0, 0) "xoz" (0, 2, 0) "xzz"
    = check_face_match (0, 2, 0) "xzz" (0, 0, 0) "xoz"
  ∧ check_face_match (0, 0, 0) "xoz" (0, 2, 0) "xzz" = Returns true.
Proof.
  assert (H : differ_on_one_axis (0, 0, 0) (0, 2, 0)).
  { right; left. repeat split; lia. }
  split; [exact H|].
  split; [exact (proj1 (check_face_match_symmetric (0, 0, 0) "xoz" (0, 2, 0) "xzz" H))|].
  reflexivity.
Defined.

(** ** The oracle *)

Section Oracle.
Context {U : Utils}.

Lemma keep_face_matches_filter (cur : Coord) (kind : string) (next : Coord)
    (possible kept : list string) :
  keep_face_matches cur kind next possible = Returns kept ->
  kept = filter (fun k => check_face_match cur kind next k = Returns true) possible.
Proof.
  revert kept. induction possible as [|k rest IH]; intros kept; simpl.
  - by intros [= <-].
  - destruct (check_face_match cur kind next k) as [ok| |] eqn:Hface;
      simpl; try discriminate.
    destruct (keep_face_matches cur kind next rest) as [kept'| |];
      simpl; try discriminate.
    intros [= <-]. rewrite (IH kept' eq_refl).
    rewrite filter_cons. destruct (decide _) as [Hyes|Hno]; destruct ok; congruence.
Qed.

Lemma keep_face_matches_returns (cur : Coord) (kind : string) (next : Coord)
    (possible : list string) :
  cur ≠ next -> exists kept, keep_face_matches cur kind next possible = Returns kept.
Proof.
  intros Hne.
  assert (Hface : forall k, exists ok, check_face_match cur kind next k = Returns ok).
  { intros k. unfold check_face_match.
    destruct cur as [[x y] z], next as [[x' y'] z']; simpl.
    destruct (Z.eqb_spec (x' - x) 0); simpl; [|destruct (negb _); eauto].
    destruct (Z.eqb_spec (y' - y) 0); simpl; [|destruct (negb _); eauto].
    destruct (Z.eqb_spec (z' - z) 0); simpl; [|destruct (negb _); eauto].
    exfalso. apply Hne. f_equal; [f_equal|]; lia. }
  induction possible as [|k rest [kept IH]]; simpl; [eauto|].
  destruct (Hface k) as [ok ->]. simpl. rewrite IH. simpl. eauto.
Qed.

(** C4. Every kind [get_valid_next_kinds] returns is a cube kind (no o) when
    the current kind holds an o, and a pipe kind (plain or Hadamard, with an
    o) when it does not; the kinds returned are exactly those of the family
    tried that pass the exit check ([check_cube_match]) and the face check,
    in the order of the family. The function returns whenever the two
    positions differ. *)
Theorem get_valid_next_kinds_subset_of_family (current_pos : Coord)
    (current_kind : string) (next_pos : Coord) :
  (current_pos ≠ next_pos ->
   exists kinds, get_valid_next_kinds current_pos current_kind next_pos = Returns kinds)
  ∧ forall kinds,
      get_valid_next_kinds current_pos current_kind next_pos = Returns kinds ->
      kinds = filter (passes_both_checks current_pos current_kind next_pos)
                     (if str_has "o" current_kind then all_cube_kinds
                      else all_pipe_kinds)
      ∧ (str_has "o" current_kind = true ->
         Forall (fun k => k ∈ all_cube_kinds ∧ str_has "o" k = false) kinds)
      ∧ (str_has "o" current_kind = false ->
         Forall (fun k => k ∈ all_pipe_kinds ∧ str_has "o" k = true) kinds).
Proof.
  split.
  { intros Hne. unfold get_valid_next_kinds. by apply keep_face_matches_returns. }
  intros kinds Hret. unfold get_valid_next_kinds in Hret.
  assert (Heq : kinds = filter (passes_both_checks current_pos current_kind next_pos)
                          (if str_has "o" current_kind then all_cube_kinds
                           else all_pipe_kinds)).
  { destruct (str_has "o" current_kind);
      apply keep_face_matches_filter in Hret; rewrite Hret;
      rewrite list_filter_filter; apply list_filter_iff; intros k;
      unfold passes_both_checks; tauto. }
  split; [exact Heq|]. split; intros Ho; rewrite Ho in Heq; rewrite Heq;
    apply Forall_forall; intros k Hk; apply list_elem_of_filter in Hk as [_ Hk];
    (split; [exact Hk|]).
  - assert (Hall : Forall (fun k => str_has "o" k = false) all_cube_kinds)
      by (repeat constructor).
    by apply (proj1 (Forall_forall _ _) Hall).
  - assert (Hall : Forall (fun k => str_has "o" k = true) all_pipe_kinds)
      by (repeat constructor).
    by apply (proj1 (Forall_forall _ _) Hall).
Qed.

End Oracle.

Lemma get_valid_next_kinds_subset_of_family_witness :
  get_valid_next_kinds (U := sample_utils) (0, 0, 0) "xxz" (1, 0, 0)
  = Returns ["oxz"; "oxzh"]
  ∧ ["oxz"; "oxzh"]
    = filter (passes_both_checks (U := sample_utils) (0, 0, 0) "xxz" (1, 0, 0))
             all_pipe_kinds
  ∧ Forall (fun k => k ∈ all_pipe_kinds ∧ str_has "o" k = true) ["oxz"; "oxzh"].
Proof.
  assert (Hrun : get_valid_next_kinds (U := sample_utils) (0, 0, 0) "xxz" (1, 0, 0)
                 = Returns ["oxz"; "oxzh"]) by reflexivity.
  destruct (get_valid_next_kinds_subset_of_family (U := sample_utils)
              (0, 0, 0) "xxz" (1, 0, 0)) as [_ Hspec].
  destruct (Hspec _ Hrun) as (Hfilter & _ & Hpipes).
  split; [exact Hrun|]. split; [exact Hfilter|]. apply Hpipes. reflexivity.
Defined.

(** ** The target kinds *)

(** C6. [generate_tentative_target_types] returns the singleton of the
    override kind whenever an override kind is supplied. A kind is a string
    of three or four symbols, never the empty one; the test of line 447 is
    Python's truth value of the argument, which tells [None] and the empty
    string from every other string, and the driver (lines 102-104) hands
    over [None] for either. With no override it returns the fixed family of
    the ZX type: 3 kinds for X, 3 for Z, 1 for the boundary type O, 6 for
    SIMPLE and 6 for HADAMARD; for every other ZX type it returns the
    singleton of the input value itself. *)
Theorem generate_tentative_target_types_families (zx : string) (o : option string) :
  (forall k, o = Some k -> k ≠ "" -> generate_tentative_target_types zx o = [k])
  ∧ (truthy o = false ->
     generate_tentative_target_types "X" o = ["xxz"; "xzx"; "zxx"]
     ∧ generate_tentative_target_types "Z" o = ["xzz"; "zzx"; "zxz"]
     ∧ generate_tentative_target_types "O" o = ["ooo"]
     ∧ generate_tentative_target_types "SIMPLE" o
       = ["zxo"; "xzo"; "oxz"; "ozx"; "xoz"; "zox"]
     ∧ generate_tentative_target_types "HADAMARD" o
       = ["zxoh"; "xzoh"; "oxzh"; "ozxh"; "xozh"; "zoxh"]
     ∧ (zx ∉ known_zx_types -> generate_tentative_target_types zx o = [zx])).
Proof.
  split.
  - intros k -> Hk. destruct k; [done|reflexivity].
  - intros Hnone.
    assert (Hfall : forall t, generate_tentative_target_types t o
                              = generate_tentative_target_types t None).
    { intros t. destruct o as [[|c k]|]; [reflexivity|discriminate|reflexivity]. }
    rewrite !Hfall. repeat (split; [reflexivity|]).
    intros Hzx. unfold generate_tentative_target_types, known_zx_types in *.
    rewrite !not_elem_of_cons in Hzx. destruct Hzx as (? & ? & ? & ? & ? & _).
    rewrite bool_decide_eq_false_2
      by (rewrite !not_elem_of_cons; repeat split; [done|done|apply not_elem_of_nil]).
    by rewrite !bool_decide_eq_false_2.
Qed.

Lemma generate_tentative_target_types_families_witness :
  generate_tentative_target_types "X" (Some "zxz") = ["zxz"]
  ∧ length (generate_tentative_target_types "X" None) = 3%nat
  ∧ length (generate_tentative_target_types "HADAMARD" None) = 6%nat
  ∧ generate_tentative_target_types "Y" None = ["Y"].
Proof.
  destruct (generate_tentative_target_types_families "X" (Some "zxz")) as [Hover _].
  destruct (generate_tentative_target_types_families "Y" None)
    as [_ Hfam].
  destruct (Hfam eq_refl) as (HX & _ & _ & _ & HH & Hother).
  split; [apply Hover; [reflexivity|discriminate]|].
  split; [by rewrite HX|]. split; [by rewrite HH|].
  apply Hother. unfold known_zx_types.
  rewrite !not_elem_of_cons. repeat split; try discriminate. apply not_elem_of_nil.
Defined.

(** ** The search: its first iteration *)

Section Search.
Context {U : Utils}.

Lemma manhattan_nonneg (a b : Coord) : 0 ≤ manhattan a b.
Proof. destruct a as [[? ?] ?], b as [[? ?] ?]. unfold manhattan. lia. Qed.

Lemma manhattan_same (a : Coord) : manhattan a a = 0.
Proof. destruct a as [[? ?] ?]. unfold manhattan. lia. Qed.

(** The binding of the oracle's arguments fails whatever their values. *)
Lemma call_get_valid_next_kinds_raises (current_coords : Coord)
    (current_type : string) (next_coords : Coord) (flag : bool) :
  call_get_valid_next_kinds current_coords current_type next_coords flag
  = Raises TypeError.
Proof. reflexivity. Qed.

(** A direction either is skipped, leaving the state as it was, or raises. *)
Lemma expand_returns_unchanged (source_node : Block) (forbidden : list Coord)
    (current : Block) (scale : Z) (acc acc' : string * search_state) (move : Coord) :
  expand source_node forbidden current scale acc move = Returns acc' -> acc' = acc.
Proof.
  unfold expand. destruct acc as [current_type st].
  destruct current as [[[x y] z] kind], move as [[dx dy] dz]. simpl.
  destruct (subscript (path st) _) as [here| |]; simpl; try discriminate.
  destruct (str_has "o" current_type && (scale =? 2)); simpl.
  - destruct (_ || _); [by intros [= <-]|].
    destruct (str_has "h" current_type); discriminate.
  - destruct (str_has "h" current_type); discriminate.
Qed.

Lemma for_each_expand_returns_unchanged (source_node : Block)
    (forbidden : list Coord) (current : Block) (scale : Z) (moves : list Coord)
    (acc acc' : string * search_state) :
  for_each (expand source_node forbidden current scale) moves acc = Returns acc' ->
  acc' = acc.
Proof.
  revert acc. induction moves as [|move moves IH]; intros acc; simpl.
  - by intros [= <-].
  - destruct (expand _ _ _ _ acc move) as [acc1| |] eqn:Hstep; simpl; try discriminate.
    apply expand_returns_unchanged in Hstep as ->. apply IH.
Qed.

(** A cube, or any kind without an o, is expanded in its first direction,
    and that expansion raises. *)
Lemma for_each_expand_cube_raises (source_node : Block) (forbidden : list Coord)
    (current : Block) (current_type : string) (st : search_state) (here : list Block) :
  path st !! current = Some here ->
  str_has "o" current_type = false ->
  for_each (expand source_node forbidden current 1) spatial_moves (current_type, st)
  = Raises TypeError.
Proof.
  intros Hpath Ho. destruct current as [[[x y] z] kind]. simpl.
  unfold subscript. rewrite Hpath. simpl. rewrite Ho. simpl.
  by destruct (str_has "h" current_type).
Qed.

(** C3. When the state taken off the queue lies further from the target (in
    Manhattan distance) than six times the distance between source and
    target, the loop ends there and the search returns the failure
    [(False, -1, None)], whatever else is still on the queue. *)
Theorem bfs_while_aborts_beyond_bound (source_node : Block) (end_coords : Coord)
    (end_type : string) (forbidden_cords : list Coord) (fuel : nat)
    (st : search_state) (current_node_info : Block) (rest : list Block) :
  queue st = current_node_info :: rest ->
  6 * manhattan source_node.1 end_coords < manhattan current_node_info.1 end_coords ->
  bfs_while source_node end_coords end_type forbidden_cords
            (manhattan source_node.1 end_coords) (S fuel) st
  = Returns (false, -1, None).
Proof.
  intros Hqueue Hfar. simpl. rewrite Hqueue.
  destruct current_node_info as [current_coords current_type]. simpl in Hfar.
  by rewrite (proj2 (Z.ltb_lt _ _) Hfar).
Qed.

(** C5, as amended. When source and target have the same coordinate and the
    target kind is the wildcard ["ooo"] or equals the source kind, the
    search succeeds in its first iteration with length 0 and the path that
    holds the source block alone. *)
Theorem bfs_extended_3d_same_coordinate (fuel : nat) (coords : Coord)
    (source_kind target_kind : string) (forbidden_cords : list Coord) (flag : bool) :
  target_kind = "ooo" ∨ source_kind = target_kind ->
  (bfs_extended_3d (S fuel) (coords, source_kind) (coords, target_kind)
                   forbidden_cords flag).1
  = Returns (true, 0, Some [(coords, source_kind)]).
Proof.
  intros Hkind. unfold bfs_extended_3d. simpl.
  rewrite manhattan_same. simpl.
  rewrite bool_decide_eq_true_2 by done.
  assert (Hgoal : bool_decide (target_kind = "ooo")
                  || bool_decide (source_kind = target_kind) = true).
  { destruct Hkind as [->| ->].
    - reflexivity.
    - rewrite (bool_decide_eq_true_2 (target_kind = target_kind)) by done.
      apply orb_true_r. }
  rewrite Hgoal. simpl. unfold subscript.
  by rewrite !lookup_singleton_eq.
Qed.

(** One turn of the [while] loop, as an equation. *)
Lemma bfs_while_step (source_node : Block) (end_coords : Coord) (end_type : string)
    (forbidden : list Coord) (initial : Z) (fuel : nat) (st : search_state)
    (current_coords : Coord) (current_type : string) (rest : list Block) :
  queue st = (current_coords, current_type) :: rest ->
  bfs_while source_node end_coords end_type forbidden initial (S fuel) st
  = if 6 * initial <? manhattan current_coords end_coords then Returns failure
    else if bool_decide (current_coords = end_coords)
            && (bool_decide (end_type = "ooo")
                || bool_decide (current_type = end_type))
    then
      len ← subscript (path_length (with_queue rest st)) (current_coords, current_type);
      found ← subscript (path (with_queue rest st)) (current_coords, current_type);
      Returns (true, len, Some found)
    else
      acc ← for_each (expand source_node forbidden (current_coords, current_type)
                             (if str_has "o" current_type then 2 else 1))
                     spatial_moves (current_type, with_queue rest st);
      bfs_while source_node end_coords end_type forbidden initial fuel acc.2.
Proof. intros Hqueue. simpl. by rewrite Hqueue. Qed.

(** What the first iteration can give: the only success is the source
    itself, and a source that is not the goal and has no o raises. *)
Lemma bfs_extended_3d_first_iteration (fuel : nat) (source_node target_node : Block)
    (forbidden_cords : list Coord) (flag : bool) :
  let result := (bfs_extended_3d fuel source_node target_node forbidden_cords flag).1 in
  (forall len found, result = Returns (true, len, found) ->
     len = 0 ∧ found = Some [source_node] ∧ source_node.1 = target_node.1
     ∧ (target_node.2 = "ooo" ∨ source_node.2 = target_node.2))
  ∧ (fuel ≠ 0%nat ->
     str_has "o" source_node.2 = false ->
     ¬ (source_node.1 = target_node.1
        ∧ (target_node.2 = "ooo" ∨ source_node.2 = target_node.2)) ->
     result = Raises TypeError).
Proof.
  destruct source_node as [start_coords source_kind].
  destruct target_node as [end_coords end_type].
  unfold bfs_extended_3d. cbn [fst snd].
  destruct fuel as [|fuel]; [split; [discriminate|done]|].
  rewrite (bfs_while_step _ _ _ _ _ _ _ start_coords source_kind []) by reflexivity.
  pose proof (manhattan_nonneg start_coords end_coords) as Hd.
  destruct (Z.ltb_spec (6 * manhattan start_coords end_coords)
                       (manhattan start_coords end_coords)) as [Hlt|_]; [lia|].
  destruct (bool_decide (start_coords = end_coords)
            && (bool_decide (end_type = "ooo")
                || bool_decide (source_kind = end_type))) eqn:Hgoal.
  - apply andb_true_iff in Hgoal as [Hc Hk].
    apply bool_decide_eq_true_1 in Hc.
    apply orb_true_iff in Hk.
    rewrite !bool_decide_eq_true in Hk.
    unfold subscript. cbn [path path_length with_queue initial_state].
    rewrite !lookup_singleton_eq. split.
    + by intros len found [= <- <-].
    + intros _ _ Hnot. by destruct Hnot.
  - split.
    + intros len found.
      destruct (for_each _ spatial_moves _) as [acc| |] eqn:Hloop; try discriminate.
      apply for_each_expand_returns_unchanged in Hloop as ->.
      destruct fuel; discriminate.
    + intros _ Ho Hnot. cbn [snd] in Ho. rewrite Ho.
      erewrite for_each_expand_cube_raises; [done| |exact Ho].
      apply lookup_singleton_eq.
Qed.

(** A direction returns or raises; the loop over the directions gives the
    state back as it was, or raises. *)
Lemma for_each_expand_outcome (source_node : Block) (forbidden : list Coord)
    (current : Block) (scale : Z) (moves : list Coord)
    (acc : string * search_state) :
  for_each (expand source_node forbidden current scale) moves acc = Returns acc
  ∨ exists e, for_each (expand source_node forbidden current scale) moves acc
              = Raises e.
Proof.
  induction moves as [|move moves IH]; simpl; [by left|].
  destruct (expand _ _ _ _ acc move) as [acc'|e|] eqn:Hstep; simpl.
  - apply expand_returns_unchanged in Hstep as ->. exact IH.
  - right. by exists e.
  - exfalso. revert Hstep. unfold expand. destruct acc as [current_type st].
    destruct current as [[[x y] z] kind], move as [[dx dy] dz]. cbn [fst snd].
    unfold subscript. destruct (path st !! _); simpl; [|discriminate].
    destruct (match _ with Some _ => _ | None => _ end); [discriminate|].
    destruct (str_has "h" current_type); discriminate.
Qed.

(** The search ends within one turn of its loop: one unit of fuel is
    enough, and more fuel gives the same result. *)
Lemma bfs_extended_3d_one_iteration (fuel : nat) (source_node target_node : Block)
    (forbidden_cords : list Coord) (flag : bool) :
  bfs_extended_3d (S fuel) source_node target_node forbidden_cords flag
  = bfs_extended_3d 1 source_node target_node forbidden_cords flag
  ∧ (bfs_extended_3d (S fuel) source_node target_node forbidden_cords flag).1
    ≠ OutOfFuel.
Proof.
  destruct source_node as [start_coords source_kind].
  destruct target_node as [end_coords end_type].
  unfold bfs_extended_3d. cbn [fst snd].
  rewrite !(bfs_while_step _ _ _ _ _ _ _ start_coords source_kind []) by reflexivity.
  destruct (_ <? _); [done|]. destruct (_ && _).
  - split; [done|]. unfold subscript. cbn [path path_length with_queue initial_state].
    by rewrite !lookup_singleton_eq.
  - destruct (for_each_expand_outcome (start_coords, source_kind)
                (without_endpoints start_coords end_coords forbidden_cords)
                (start_coords, source_kind)
                (if str_has "o" source_kind then 2 else 1) spatial_moves
                (source_kind, with_queue [] (initial_state (start_coords, source_kind)
                                                           flag)))
      as [->|[e ->]]; cbn [mbind outcome_bind]; [|done].
    by destruct fuel.
Qed.

End Search.

(** ** Lists of obstacles *)

Lemma elem_of_occurrences (c : Coord) (l : list Coord) :
  c ∈ l <-> (0 < occurrences c l)%nat.
Proof.
  induction l as [|y l IH]; simpl.
  - split; [by intros ?%elem_of_nil|lia].
  - rewrite elem_of_cons, IH. destruct (decide (c = y)); intuition lia.
Qed.

Lemma occurrences_remove_first (c x : Coord) (l : list Coord) :
  occurrences c (remove_first x l)
  = if decide (c = x) then pred (occurrences c l) else occurrences c l.
Proof.
  induction l as [|y l IH]; simpl.
  - by destruct (decide (c = x)).
  - destruct (decide (x = y)) as [<-|Hxy]; simpl.
    + destruct (decide (c = x)); simpl; lia.
    + rewrite IH. destruct (decide (c = x)) as [->|Hcx].
      * rewrite decide_False by done. simpl. done.
      * done.
Qed.

Lemma remove_if_present_first (x : Coord) (l : list Coord) :
  remove_if_present x l = remove_first x l.
Proof.
  unfold remove_if_present, py_in. case_bool_decide as Hin; [done|].
  induction l as [|y l IH]; simpl; [done|].
  rewrite not_elem_of_cons in Hin. destruct Hin as [Hxy Hin].
  rewrite decide_False by done. by rewrite <- IH.
Qed.

Lemma occurrences_without (c x : Coord) (l : list Coord) :
  occurrences c (without x l) = if decide (c = x) then 0%nat else occurrences c l.
Proof.
  unfold without. induction l as [|y l IH]; simpl.
  - by destruct (decide (c = x)).
  - rewrite filter_cons. destruct (decide (y ≠ x)) as [Hyx|Hyx]; simpl.
    + rewrite IH. destruct (decide (c = x)) as [->|]; [|done].
      by rewrite decide_False.
    + apply dec_stable in Hyx as ->. rewrite IH.
      destruct (decide (c = x)); simpl; done.
Qed.

Lemma occurrences_without_endpoints (c start_coords end_coords : Coord)
    (l : list Coord) :
  occurrences c (without_endpoints start_coords end_coords l)
  = ((occurrences c l - (if decide (c = start_coords) then 1 else 0))
     - (if decide (c = end_coords) then 1 else 0))%nat.
Proof.
  unfold without_endpoints. rewrite !remove_if_present_first.
  rewrite !occurrences_remove_first.
  destruct (decide (c = start_coords)), (decide (c = end_coords)); lia.
Qed.

Lemma py_in_occurrences (c : Coord) (l l' : list Coord) :
  ((0 < occurrences c l)%nat <-> (0 < occurrences c l')%nat) ->
  py_in c l = py_in c l'.
Proof.
  intros Hocc. unfold py_in. apply bool_decide_ext.
  by rewrite !elem_of_occurrences.
Qed.

(** ** The search does not see the source among the obstacles *)

Section Agreement.
Context {U : Utils}.
Variable start_coords : Coord.
Variables obstacles obstacles' : list Coord.
Hypothesis agree :
  forall c, c ≠ start_coords -> py_in c obstacles = py_in c obstacles'.

Local Abbreviation paths_ok := (paths_from_source start_coords).

Lemma blocked_agree (c : Coord) (on_path : list Coord) :
  start_coords ∈ on_path ->
  py_in c on_path || py_in c obstacles = py_in c on_path || py_in c obstacles'.
Proof using agree.
  intros Hstart. destruct (decide (c = start_coords)) as [->|Hne].
  - unfold py_in at 1 3. by rewrite bool_decide_eq_true_2.
  - by rewrite (agree c Hne).
Qed.

Lemma visit_next_agree (current : Block) (on_path : list Coord)
    (intermediate : option Coord) (next_coords : Coord) (st : search_state)
    (next_type : string) :
  start_coords ∈ on_path ->
  visit_next obstacles current on_path intermediate next_coords st next_type
  = visit_next obstacles' current on_path intermediate next_coords st next_type.
Proof using agree.
  intros Hstart. unfold visit_next.
  pose proof (blocked_agree next_coords on_path Hstart) as Hblocked.
  destruct (py_in next_coords on_path); simpl in *; [done|].
  by rewrite Hblocked.
Qed.

Lemma visit_next_paths (forbidden : list Coord) (current : Block)
    (on_path : list Coord) (intermediate : option Coord) (next_coords : Coord)
    (st : search_state) (next_type : string) :
  paths_ok st ->
  on_return paths_ok
    (visit_next forbidden current on_path intermediate next_coords st next_type).
Proof.
  intros Hst. unfold visit_next.
  destruct (_ && _ && _); simpl; [|done].
  destruct (subscript (path_length st) current) as [old_length| |]; simpl; try done.
  destruct (match visited st !! _ with Some _ => _ | None => _ end); simpl; [|done].
  unfold subscript. destruct (path st !! current) as [old_path|] eqn:Hold; simpl; [|done].
  intros k p. simpl. rewrite lookup_insert.
  case_decide as Hk.
  - intros [= <-]. rewrite map_app, elem_of_app. left. by apply (Hst current).
  - apply Hst.
Qed.

Lemma for_each_visit_next_agree (current : Block) (on_path : list Coord)
    (intermediate : option Coord) (next_coords : Coord) (kinds : list string)
    (st : search_state) :
  start_coords ∈ on_path ->
  paths_ok st ->
  for_each (visit_next obstacles current on_path intermediate next_coords) kinds st
  = for_each (visit_next obstacles' current on_path intermediate next_coords) kinds st
  ∧ on_return paths_ok
      (for_each (visit_next obstacles current on_path intermediate next_coords)
                kinds st).
Proof using agree.
  intros Hstart. revert st. induction kinds as [|kind kinds IH]; intros st Hst; simpl.
  - done.
  - rewrite <- visit_next_agree by done.
    pose proof (visit_next_paths obstacles current on_path intermediate next_coords
                  st kind Hst) as Hnext.
    destruct (visit_next obstacles _ _ _ _ st kind) as [st'| |]; simpl; [|done..].
    by apply IH.
Qed.

Lemma with_queue_paths (q : list Block) (st : search_state) :
  paths_ok st -> paths_ok (with_queue q st).
Proof. done. Qed.

Lemma expand_agree (source_node current : Block) (scale : Z)
    (acc : string * search_state) (move : Coord) :
  paths_ok acc.2 ->
  expand source_node obstacles current scale acc move
  = expand source_node obstacles' current scale acc move
  ∧ on_return (fun acc' => paths_ok acc'.2)
      (expand source_node obstacles current scale acc move).
Proof using agree.
  destruct acc as [current_type st]. cbn [snd]. intros Hst. unfold expand.
  destruct current as [[[x y] z] kind], move as [[dx dy] dz]. cbn [fst snd].
  destruct (subscript (path st) _) as [here| |] eqn:Hhere;
    cbn [mbind outcome_bind on_return]; [|done..].
  assert (Hstart : start_coords ∈ map fst here).
  { unfold subscript in Hhere.
    destruct (path st !! _) as [p|] eqn:Hp; [|discriminate].
    injection Hhere as <-. by apply (Hst _ _ Hp). }
  destruct (str_has "o" current_type && (scale =? 2)).
  - rewrite <- (blocked_agree _ _ Hstart).
    destruct (_ || _); [done|].
    destruct (str_has "h" current_type);
      expand_agree_tail for_each_visit_next_agree Hstart Hst.
  - destruct (str_has "h" current_type);
      expand_agree_tail for_each_visit_next_agree Hstart Hst.
Qed.

Lemma for_each_expand_agree (source_node current : Block) (scale : Z)
    (moves : list Coord) (acc : string * search_state) :
  paths_ok acc.2 ->
  for_each (expand source_node obstacles current scale) moves acc
  = for_each (expand source_node obstacles' current scale) moves acc
  ∧ on_return (fun acc' => paths_ok acc'.2)
      (for_each (expand source_node obstacles current scale) moves acc).
Proof using agree.
  revert acc. induction moves as [|move moves IH]; intros acc Hacc; simpl.
  - done.
  - destruct (expand_agree source_node current scale acc move Hacc) as [<- Hpaths].
    destruct (expand source_node obstacles _ _ acc move) as [acc'| |]; simpl; [|done..].
    by apply IH.
Qed.

Lemma bfs_while_agree (source_node : Block) (end_coords : Coord) (end_type : string)
    (initial : Z) (fuel : nat) (st : search_state) :
  paths_ok st ->
  bfs_while source_node end_coords end_type obstacles initial fuel st
  = bfs_while source_node end_coords end_type obstacles' initial fuel st.
Proof using agree.
  revert st. induction fuel as [|fuel IH]; intros st Hst.
  - done.
  - destruct (queue st) as [|[current_coords current_type] rest] eqn:Hqueue.
    + simpl. by rewrite Hqueue.
    + rewrite !(bfs_while_step _ _ _ _ _ _ _ _ _ _ Hqueue).
      destruct (_ <? _); [done|]. destruct (_ && _); [done|].
      edestruct for_each_expand_agree as [<- Hpaths];
        [apply (with_queue_paths rest), Hst|].
      destruct (for_each _ spatial_moves _) as [acc| |]; simpl; [|done..].
      by apply IH.
Qed.

End Agreement.

(** ** The search and the obstacle list *)

Section Obstacles.
Context {U : Utils}.

Lemma initial_state_paths (source_node : Block) (flag : bool) :
  paths_from_source source_node.1 (initial_state source_node flag).
Proof.
  intros k p. cbn [path initial_state]. rewrite lookup_singleton.
  case_decide; [|done]. intros [= <-]. cbn [map]. apply list_elem_of_singleton.
  reflexivity.
Qed.

(** Two obstacle lists that hold the same coordinates, the source's apart,
    give the same search. *)
Lemma bfs_extended_3d_agree (fuel : nat) (source_node target_node : Block)
    (l l' : list Coord) (flag : bool) :
  (forall c, c ≠ source_node.1 ->
     py_in c (without_endpoints source_node.1 target_node.1 l)
     = py_in c (without_endpoints source_node.1 target_node.1 l')) ->
  (bfs_extended_3d fuel source_node target_node l flag).1
  = (bfs_extended_3d fuel source_node target_node l' flag).1.
Proof.
  intros Hagree. unfold bfs_extended_3d.
  destruct source_node as [start_coords source_kind] eqn:Hsource.
  destruct target_node as [end_coords end_type]. cbn [fst snd] in *.
  apply (bfs_while_agree start_coords _ _ Hagree).
  rewrite <- Hsource. replace start_coords with source_node.1 by by rewrite Hsource.
  apply initial_state_paths.
Qed.


(** C10. The search changes the obstacle list it is given: in every outcome,
    an exception included, the list it leaves behind is the caller's list
    without the first occurrence of the source coordinate and of the target
    coordinate. The driver hands the list one search leaves to the next
    search of the round; a coordinate of an endpoint that stood in the list
    at most once is then no obstacle any more. *)
Theorem bfs_extended_3d_changes_obstacle_list (fuel : nat)
    (source_node target_node : Block) (forbidden_cords : list Coord) (flag : bool) :
  let after := (bfs_extended_3d fuel source_node target_node forbidden_cords flag).2 in
  after = remove_first target_node.1 (remove_first source_node.1 forbidden_cords)
  ∧ (forall c, occurrences c after
               = ((occurrences c forbidden_cords
                   - (if decide (c = source_node.1) then 1 else 0))
                  - (if decide (c = target_node.1) then 1 else 0))%nat)
  ∧ (forall rs rs',
       obstacle_coords rs = forbidden_cords ->
       try_target_type fuel source_node target_node.1 flag rs target_node.2
       = Returns rs' ->
       obstacle_coords rs' = after
       ∧ (forall c, c = source_node.1 ∨ c = target_node.1 ->
                    (occurrences c forbidden_cords ≤ 1)%nat ->
                    py_in c (obstacle_coords rs') = false)).
Proof.
  destruct source_node as [start_coords source_kind].
  destruct target_node as [end_coords end_type].
  cbn zeta. unfold bfs_extended_3d at 1 2. cbn [fst snd].
  assert (Hocc : forall c,
    occurrences c (without_endpoints start_coords end_coords forbidden_cords)
    = ((occurrences c forbidden_cords - (if decide (c = start_coords) then 1 else 0))
       - (if decide (c = end_coords) then 1 else 0))%nat)
    by (intros c; apply occurrences_without_endpoints).
  split; [unfold without_endpoints; by rewrite !remove_if_present_first|].
  split; [exact Hocc|].
  intros rs rs' Hlist. unfold try_target_type. rewrite Hlist.
  unfold bfs_extended_3d. cbn [fst snd].
  destruct (bfs_while _ _ _ _ _ _ _) as [candidate| |];
    cbn [mbind outcome_bind]; try discriminate.
  intros [= <-].
  assert (Hkeep : forall cand st, obstacle_coords (keep_shortest cand st)
                                  = obstacle_coords st).
  { intros [[found len] p] st. unfold keep_shortest. by destruct found. }
  rewrite Hkeep. cbn [obstacle_coords]. split; [done|].
  intros c Hc Honce. unfold py_in. apply bool_decide_eq_false_2.
  rewrite elem_of_occurrences, Hocc.
  destruct Hc as [->| ->].
  - rewrite (decide_True (P := start_coords = start_coords)) by done. lia.
  - rewrite (decide_True (P := end_coords = end_coords)) by done. lia.
Qed.

(** C1. The call of the oracle at lines 252-254 passes a keyword that
    [get_valid_next_kinds] does not take: a search whose source is not
    already the goal and has no o in its kind raises [TypeError] at its
    first expansion, for every target, obstacle list and flag. *)
Theorem bfs_extended_3d_raises_on_first_expansion (fuel : nat)
    (source_node target_node : Block) (forbidden_cords : list Coord) (flag : bool) :
  str_has "o" source_node.2 = false ->
  ¬ (source_node.1 = target_node.1
     ∧ (target_node.2 = "ooo" ∨ source_node.2 = target_node.2)) ->
  (bfs_extended_3d (S fuel) source_node target_node forbidden_cords flag).1
  = Raises TypeError.
Proof.
  intros Ho Hgoal.
  by apply (bfs_extended_3d_first_iteration (S fuel) source_node target_node
              forbidden_cords flag).
Qed.

(** The search never returns a path that has an edge: when it reports
    success, the length is 0, the path is the source block alone, and the
    source already stood on the target coordinate. *)
Lemma bfs_extended_3d_finds_only_the_source (fuel : nat)
    (source_node target_node : Block) (forbidden_cords : list Coord) (flag : bool)
    (len : Z) (found : option (list Block)) :
  (bfs_extended_3d fuel source_node target_node forbidden_cords flag).1
  = Returns (true, len, found) ->
  len = 0 ∧ found = Some [source_node] ∧ source_node.1 = target_node.1.
Proof.
  intros Hret.
  destruct (proj1 (bfs_extended_3d_first_iteration fuel source_node target_node
                     forbidden_cords flag) len found Hret) as (? & ? & ? & _).
  done.
Qed.

(** C2. Scenario 1 of the spec, an obstacle-free pair for which the spec
    expects a path: a cube ["xxz"] at the origin and a boundary target
    three steps along x. The search does not return a shortest path, nor
    any path: it raises [TypeError] at the oracle call of its first
    expansion, whatever the outside helpers do and however long the loop
    may run. *)
Theorem bfs_extended_3d_scenario_1_raises (fuel : nat) :
  (bfs_extended_3d (S fuel) ((0, 0, 0), "xxz") ((3, 0, 0), "ooo") [] false).1
  = Raises TypeError
  ∧ forall len found,
      (bfs_extended_3d (S fuel) ((0, 0, 0), "xxz") ((3, 0, 0), "ooo") [] false).1
      ≠ Returns (true, len, found).
Proof.
  assert (Hraises :
    (bfs_extended_3d (S fuel) ((0, 0, 0), "xxz") ((3, 0, 0), "ooo") [] false).1
    = Raises TypeError).
  { apply (bfs_extended_3d_first_iteration (S fuel) ((0, 0, 0), "xxz")
             ((3, 0, 0), "ooo") [] false); [done|reflexivity|].
    cbn [fst snd]. intros [Hcoords _]. discriminate Hcoords. }
  split; [exact Hraises|]. intros len found. rewrite Hraises. discriminate.
Qed.

End Obstacles.

(** ** The search on concrete inputs

    The runs below use [sample_utils] for the outside helpers. *)

(** A cube two cells below a cube target, one obstacle beside it, the
    Hadamard flag on. *)
Lemma bfs_extended_3d_raises_on_first_expansion_witness :
  str_has "o" "zxz" = false
  ∧ (bfs_extended_3d (U := sample_utils) 8 ((0, 0, 0), "zxz") ((0, 0, 3), "xzz")
                     [(0, 1, 0)] true).1
    = Raises TypeError.
Proof.
  split; [reflexivity|].
  apply (bfs_extended_3d_raises_on_first_expansion (U := sample_utils) 7
           ((0, 0, 0), "zxz") ((0, 0, 3), "xzz") [(0, 1, 0)] true).
  - reflexivity.
  - cbn [fst snd]. intros [Hcoords _]. discriminate Hcoords.
Defined.

(** A queue whose head is 9 steps from a target that lies 1 step from the
    source: the loop gives up although the block behind it is the target. *)
Lemma bfs_while_aborts_beyond_bound_witness :
  6 * manhattan (0, 0, 0) (1, 0, 0) < manhattan (10, 0, 0) (1, 0, 0)
  ∧ bfs_while (U := sample_utils) ((0, 0, 0), "xxz") (1, 0, 0) "ooo" []
              (manhattan (0, 0, 0) (1, 0, 0)) 1
              (SearchState [((10, 0, 0), "xxz"); ((1, 0, 0), "oxz")] ∅ ∅ ∅ false)
    = Returns (false, -1, None).
Proof.
  assert (Hfar : 6 * manhattan (0, 0, 0) (1, 0, 0) < manhattan (10, 0, 0) (1, 0, 0))
    by (vm_compute; reflexivity).
  split; [exact Hfar|].
  exact (bfs_while_aborts_beyond_bound (U := sample_utils) ((0, 0, 0), "xxz")
           (1, 0, 0) "ooo" [] 0
           (SearchState [((10, 0, 0), "xxz"); ((1, 0, 0), "oxz")] ∅ ∅ ∅ false)
           ((10, 0, 0), "xxz") [((1, 0, 0), "oxz")] eq_refl Hfar).
Defined.

Lemma bfs_extended_3d_same_coordinate_witness :
  (bfs_extended_3d (U := sample_utils) 1 ((4, 4, 4), "xzx") ((4, 4, 4), "ooo")
                   [(4, 4, 4)] false).1
  = Returns (true, 0, Some [((4, 4, 4), "xzx")]).
Proof.
  apply (bfs_extended_3d_same_coordinate (U := sample_utils) 0 (4, 4, 4)
           "xzx" "ooo" [(4, 4, 4)] false).
  left. reflexivity.
Defined.

(** C5, the claim as stated fails: source and target share the coordinate,
    the target kind is neither the wildcard nor the source kind, and the
    search does not succeed (here it raises at the first expansion). *)
Lemma bfs_extended_3d_same_coordinate_other_kind :
  (bfs_extended_3d (U := sample_utils) 8 ((0, 0, 0), "xxz") ((0, 0, 0), "zxx")
                   [] false).1
  = Raises TypeError
  ∧ (bfs_extended_3d (U := sample_utils) 8 ((0, 0, 0), "xxz") ((0, 0, 0), "zxx")
                     [] false).1
    ≠ Returns (true, 0, Some [((0, 0, 0), "xxz")]).
Proof.
  assert (Hrun : (bfs_extended_3d (U := sample_utils) 8 ((0, 0, 0), "xxz")
                    ((0, 0, 0), "zxx") [] false).1 = Raises TypeError)
    by (vm_compute; reflexivity).
  split; [exact Hrun|]. rewrite Hrun. discriminate.
Qed.


Lemma bfs_extended_3d_changes_obstacle_list_witness :
  (bfs_extended_3d (U := sample_utils) 8 ((0, 0, 0), "xxz") ((3, 0, 0), "ooo")
                   [(3, 0, 0); (0, 0, 0); (1, 0, 0); (0, 0, 0)] false)
  = (Raises TypeError, [(1, 0, 0); (0, 0, 0)])
  ∧ exists rs',
      try_target_type (U := sample_utils) 8 ((0, 0, 0), "xxz") (0, 0, 0) false
        (RoundState [] None false None None [(2, 0, 0); (0, 0, 0)] []) "ooo"
      = Returns rs'
      ∧ obstacle_coords rs' = [(2, 0, 0)]
      ∧ py_in (0, 0, 0) (obstacle_coords rs') = false.
Proof.
  split; [vm_compute; reflexivity|].
  eexists. split; [vm_compute; reflexivity|].
  destruct (bfs_extended_3d_changes_obstacle_list (U := sample_utils) 8
              ((0, 0, 0), "xxz") ((0, 0, 0), "ooo") [(2, 0, 0); (0, 0, 0)] false)
    as (_ & _ & Hround).
  destruct (Hround (RoundState [] None false None None [(2, 0, 0); (0, 0, 0)] [])
              _ eq_refl ltac:(vm_compute; reflexivity)) as [Hlist Hfree].
  split; [exact Hlist|].
  apply Hfree; [by left|vm_compute; lia].
Defined.

(** ** The driver on [bfs_extended_3d]: what holds between two searches *)

Section Driver.
Context {U : Utils}.
Variables (fuel : nat) (source_node : Block) (flag : bool).

Local Abbreviation searched := (searched fuel source_node flag).
Local Abbreviation round_ok := (round_ok fuel source_node flag).

Lemma successful_paths_app (log log' : list search_result) :
  successful_paths (log ++ log') = successful_paths log ++ successful_paths log'.
Proof.
  induction log as [|[[[] len] p] log IH]; simpl; by rewrite ?IH.
Qed.

Lemma successful_paths_elem (log : list search_result) (len : Z)
    (p : option (list Block)) :
  (true, len, p) ∈ log -> p ∈ successful_paths log.
Proof.
  induction log as [|[[found len'] p'] log IH]; [by intros ?%elem_of_nil|].
  rewrite elem_of_cons. intros [[= <- <- <-]|Hin]; simpl.
  - apply list_elem_of_here.
  - destruct found; [apply list_elem_of_further|]; by apply IH.
Qed.

Lemma keep_shortest_ok (candidate : search_result) (rs : round_state)
    (obstacles : list Coord) :
  searched candidate ->
  round_ok rs ->
  round_ok (keep_shortest candidate
              (RoundState (all_paths_from_round rs) (min_path_length rs)
                          (path_found rs) (round_length rs) (round_path rs)
                          obstacles (searches rs ++ [candidate]))).
Proof.
  intros Hcand (Hlog & Hall & Hmin & Hbest).
  destruct candidate as [[found len] p]. unfold keep_shortest, round_ok.
  assert (Hlog' : Forall searched (searches rs ++ [(found, len, p)])).
  { apply Forall_app. split; [done|]. by apply Forall_singleton. }
  destruct found; cbn [searches all_paths_from_round min_path_length
                       round_length round_path path_found].
  - rewrite successful_paths_app, Hall. cbn [successful_paths].
    split; [done|]. split; [done|].
    rewrite Hmin. destruct (round_length rs) as [shortest|].
    + destruct Hbest as (Hfound & Hin & Hleast).
      destruct (Z.ltb_spec len shortest) as [Hlt|Hge].
      * split; [done|]. split; [done|]. split.
        { apply elem_of_app. right. apply list_elem_of_here. }
        intros len' p'. rewrite elem_of_app, list_elem_of_singleton.
        intros [Hin'|[= -> _]]; [|lia]. specialize (Hleast _ _ Hin'). lia.
      * split; [done|]. split; [done|]. split.
        { apply elem_of_app. by left. }
        intros len' p'. rewrite elem_of_app, list_elem_of_singleton.
        intros [Hin'|[= -> _]]; [by apply (Hleast _ p')|lia].
    + destruct Hbest as (_ & _ & Hnone).
      split; [done|]. split; [done|]. split.
      { apply elem_of_app. right. apply list_elem_of_here. }
      intros len' p'. rewrite elem_of_app, list_elem_of_singleton.
      intros [Hin'|[= -> _]]; [by destruct (Hnone _ _ Hin')|lia].
  - rewrite successful_paths_app. cbn [successful_paths]. rewrite app_nil_r.
    split; [done|]. split; [done|]. split; [done|].
    destruct (round_length rs) as [shortest|].
    + destruct Hbest as (Hfound & Hin & Hleast).
      split; [done|]. split; [apply elem_of_app; by left|].
      intros len' p'. rewrite elem_of_app, list_elem_of_singleton.
      intros [Hin'|[=]]. by apply (Hleast _ p').
    + destruct Hbest as (Hfound & Hpath & Hnone).
      split; [done|]. split; [done|].
      intros len' p'. rewrite elem_of_app, list_elem_of_singleton.
      intros [Hin'|[=]]. by destruct (Hnone _ _ Hin').
Qed.

Lemma try_target_type_ok (position : Coord) (rs : round_state) (kind : string) :
  round_ok rs ->
  on_return round_ok (try_target_type fuel source_node position flag rs kind).
Proof using Type.
  intros Hrs. unfold try_target_type.
  destruct (bfs_extended_3d fuel source_node (position, kind)
              (obstacle_coords rs) flag) as [result obstacles] eqn:Hsearch.
  destruct result as [candidate| |]; cbn [mbind outcome_bind on_return]; [|done..].
  apply keep_shortest_ok; [|done].
  exists (position, kind), (obstacle_coords rs). by rewrite Hsearch.
Qed.

Lemma for_each_try_target_type_ok (position : Coord) (kinds : list string)
    (rs : round_state) :
  round_ok rs ->
  on_return round_ok
    (for_each (try_target_type fuel source_node position flag) kinds rs).
Proof using Type.
  revert rs. induction kinds as [|kind kinds IH]; intros rs Hrs; simpl; [done|].
  pose proof (try_target_type_ok position rs kind Hrs) as Hstep.
  destruct (try_target_type _ _ _ _ rs kind) as [rs'| |]; simpl; [|done..].
  by apply IH.
Qed.

Lemma attempts_ok (zx : string) (distance max_distance : Z)
    (overwrite : option Coord * option string) (bounds : Z * Z * Z * Z * Z * Z)
    (remaining : nat) (rs : round_state) :
  round_ok rs ->
  on_return round_ok
    (attempts fuel source_node zx distance max_distance overwrite bounds flag
              remaining rs).
Proof using Type.
  revert rs. induction remaining as [|remaining IH]; intros rs Hrs; simpl; [done|].
  destruct (_ || _); [done|].
  destruct (generate_tentative_target_position _ _ _ _) as [position|];
    [|by apply IH].
  pose proof (for_each_try_target_type_ok position
                (generate_tentative_target_types zx
                   (if truthy overwrite.2 then overwrite.2 else None)) rs Hrs)
    as Hloop.
  destruct (for_each _ _ rs) as [rs'| |]; simpl; [|done..].
  by apply IH.
Qed.

End Driver.

(** ** The driver keeps the first shortest path of the round *)

Section DriverAnySearch.
Context {U : Utils}.

Lemma keep_shortest_first (search : search_function) (source_node : Block)
    (flag : bool) (candidate : search_result) (rs : round_state)
    (obstacles : list Coord) :
  searched_with search source_node flag candidate ->
  round_keeps_first_shortest search source_node flag rs ->
  round_keeps_first_shortest search source_node flag
    (keep_shortest candidate
       (RoundState (all_paths_from_round rs) (min_path_length rs)
                   (path_found rs) (round_length rs) (round_path rs)
                   obstacles (searches rs ++ [candidate]))).
Proof.
  intros Hcand (Hlog & Hall & Hmin & Hbest).
  destruct candidate as [[found len] p].
  unfold keep_shortest, round_keeps_first_shortest.
  assert (Hlog' : Forall (searched_with search source_node flag)
                         (searches rs ++ [(found, len, p)])).
  { apply Forall_app. split; [done|]. by apply Forall_singleton. }
  destruct found; cbn [searches all_paths_from_round min_path_length
                       round_length round_path path_found].
  - rewrite successful_paths_app, Hall. cbn [successful_paths].
    split; [done|]. split; [done|].
    rewrite Hmin. destruct (round_length rs) as [shortest|].
    + destruct Hbest as (Hfound & before & after & Hsplit & Hbefore & Hafter).
      destruct (Z.ltb_spec len shortest) as [Hlt|Hge].
      * split; [done|]. split; [done|].
        exists (searches rs), []. split; [done|].
        split; [|by intros ? ? ?%elem_of_nil].
        intros len' p'. rewrite Hsplit, elem_of_app, elem_of_cons.
        intros [Hin|[[= -> _]|Hin]]; [|lia|].
        -- specialize (Hbefore _ _ Hin). lia.
        -- specialize (Hafter _ _ Hin). lia.
      * split; [done|]. split; [done|].
        exists before, (after ++ [(true, len, p)]).
        split; [by rewrite Hsplit, <- app_assoc|]. split; [done|].
        intros len' p'. rewrite elem_of_app, list_elem_of_singleton.
        intros [Hin|[= -> _]]; [by apply (Hafter _ p')|lia].
    + destruct Hbest as (_ & _ & Hnone).
      split; [done|]. split; [done|].
      exists (searches rs), []. split; [done|].
      split; [|by intros ? ? ?%elem_of_nil].
      intros len' p' Hin. by destruct (Hnone _ _ Hin).
  - rewrite successful_paths_app. cbn [successful_paths]. rewrite app_nil_r.
    split; [done|]. split; [done|]. split; [done|].
    destruct (round_length rs) as [shortest|].
    + destruct Hbest as (Hfound & before & after & Hsplit & Hbefore & Hafter).
      split; [done|]. exists before, (after ++ [(false, len, p)]).
      split; [by rewrite Hsplit, <- app_assoc|]. split; [done|].
      intros len' p'. rewrite elem_of_app, list_elem_of_singleton.
      intros [Hin|[=]]. by apply (Hafter _ p').
    + destruct Hbest as (Hfound & Hpath & Hnone).
      split; [done|]. split; [done|].
      intros len' p'. rewrite elem_of_app, list_elem_of_singleton.
      intros [Hin|[=]]. by destruct (Hnone _ _ Hin).
Qed.

Lemma try_target_type_with_first (search : search_function) (source_node : Block)
    (flag : bool) (position : Coord) (rs : round_state) (kind : string) :
  round_keeps_first_shortest search source_node flag rs ->
  on_return (round_keeps_first_shortest search source_node flag)
    (try_target_type_with search source_node position flag rs kind).
Proof.
  intros Hrs. unfold try_target_type_with.
  destruct (search source_node (position, kind) (obstacle_coords rs) flag)
    as [result obstacles] eqn:Hsearch.
  destruct result as [candidate| |]; cbn [mbind outcome_bind on_return]; [|done..].
  apply keep_shortest_first; [|done].
  exists (position, kind), (obstacle_coords rs). by rewrite Hsearch.
Qed.

Lemma for_each_try_target_type_with_first (search : search_function)
    (source_node : Block) (flag : bool) (position : Coord) (kinds : list string)
    (rs : round_state) :
  round_keeps_first_shortest search source_node flag rs ->
  on_return (round_keeps_first_shortest search source_node flag)
    (for_each (try_target_type_with search source_node position flag) kinds rs).
Proof.
  revert rs. induction kinds as [|kind kinds IH]; intros rs Hrs; simpl; [done|].
  pose proof (try_target_type_with_first search source_node flag position rs kind
                Hrs) as Hstep.
  destruct (try_target_type_with _ _ _ _ rs kind) as [rs'| |]; simpl; [|done..].
  by apply IH.
Qed.

Lemma attempts_with_first (search : search_function) (source_node : Block)
    (flag : bool) (zx : string) (distance max_distance : Z)
    (overwrite : option Coord * option string) (bounds : Z * Z * Z * Z * Z * Z)
    (remaining : nat) (rs : round_state) :
  round_keeps_first_shortest search source_node flag rs ->
  on_return (round_keeps_first_shortest search source_node flag)
    (attempts_with search source_node zx distance max_distance overwrite bounds
                   flag remaining rs).
Proof.
  revert rs. induction remaining as [|remaining IH]; intros rs Hrs; simpl; [done|].
  destruct (_ || _); [done|].
  destruct (generate_tentative_target_position _ _ _ _) as [position|];
    [|by apply IH].
  pose proof (for_each_try_target_type_with_first search source_node flag position
                (generate_tentative_target_types zx
                   (if truthy overwrite.2 then overwrite.2 else None)) rs Hrs)
    as Hloop.
  destruct (for_each _ _ rs) as [rs'| |]; simpl; [|done..].
  by apply IH.
Qed.

(** The loop of the driver is the loop above run on [bfs_extended_3d]. *)
Lemma attempts_with_bfs_extended_3d (fuel : nat) (source_node : Block)
    (zx : string) (distance max_distance : Z)
    (overwrite : option Coord * option string) (bounds : Z * Z * Z * Z * Z * Z)
    (flag : bool) (remaining : nat) (rs : round_state) :
  attempts fuel source_node zx distance max_distance overwrite bounds flag
           remaining rs
  = attempts_with (bfs_extended_3d fuel) source_node zx distance max_distance
                  overwrite bounds flag remaining rs.
Proof.
  revert rs. induction remaining as [|remaining IH]; intros rs; simpl; [done|].
  destruct (_ || _); [done|].
  destruct (generate_tentative_target_position _ _ _ _) as [position|];
    [|by apply IH].
  change (try_target_type_with (bfs_extended_3d fuel) source_node position flag)
    with (try_target_type fuel source_node position flag).
  destruct (for_each _ _ rs) as [rs'| |]; simpl; [|done..].
  by apply IH.
Qed.

(** C8. The driver reports the first shortest of the successful searches of
    its round, whatever the searches return. The driver is
    [run_bfs_with] run on [bfs_extended_3d] (first part). For every search
    function (second part), when the driver returns, with [log] the results
    of the searches the round ran, in order: the list of all paths is the
    list of the paths of the successful ones; when a path was found, the
    reported length and path are those of a successful search of the log,
    no successful search of the log is shorter, every successful search
    before it is strictly longer, and the reported path is in the list of
    all paths; when none was found, no search of the log was successful and
    nothing is reported. *)
Theorem run_bfs_reports_shortest_of_round :
  (forall (fuel : nat) (source_node : Block) (zx : string)
          (distance max_distance attempts_per_distance : Z)
          (overwrite : option Coord * option string)
          (occupied_coords : list Coord) (flag : bool),
     run_round fuel source_node zx distance max_distance attempts_per_distance
               overwrite occupied_coords flag
     = run_round_with (bfs_extended_3d fuel) source_node zx distance max_distance
                      attempts_per_distance overwrite occupied_coords flag
     ∧ run_bfs_for_all_potential_target_nodes fuel source_node zx distance
         max_distance attempts_per_distance overwrite occupied_coords flag
       = run_bfs_with (bfs_extended_3d fuel) source_node zx distance max_distance
                      attempts_per_distance overwrite occupied_coords flag)
  ∧ (forall (search : search_function) (source_node : Block) (zx : string)
            (distance max_distance attempts_per_distance : Z)
            (overwrite : option Coord * option string)
            (occupied_coords : list Coord) (flag : bool)
            (found : bool) (reported_length : option Z)
            (reported_path : option (list Block))
            (all_paths : list (option (list Block))),
       run_bfs_with search source_node zx distance max_distance
                    attempts_per_distance overwrite occupied_coords flag
       = Returns (found, reported_length, reported_path, all_paths) ->
       exists rs,
         run_round_with search source_node zx distance max_distance
                        attempts_per_distance overwrite occupied_coords flag
         = Returns rs
         ∧ Forall (searched_with search source_node flag) (searches rs)
         ∧ all_paths = successful_paths (searches rs)
         ∧ (found = true ->
            exists shortest,
              reported_length = Some shortest
              ∧ (true, shortest, reported_path) ∈ searches rs
              ∧ reported_path ∈ all_paths
              ∧ (forall len p, (true, len, p) ∈ searches rs -> shortest ≤ len)
              ∧ exists before after,
                  searches rs = before ++ (true, shortest, reported_path) :: after
                  ∧ forall len p, (true, len, p) ∈ before -> shortest < len)
         ∧ (found = false ->
            reported_length = None ∧ reported_path = None ∧ all_paths = []
            ∧ forall len p, (true, len, p) ∉ searches rs)).
Proof.
  split.
  - intros fuel source_node zx distance max_distance attempts_per_distance
           overwrite occupied_coords flag.
    assert (Hround :
      run_round fuel source_node zx distance max_distance attempts_per_distance
                overwrite occupied_coords flag
      = run_round_with (bfs_extended_3d fuel) source_node zx distance max_distance
                       attempts_per_distance overwrite occupied_coords flag)
      by apply attempts_with_bfs_extended_3d.
    split; [exact Hround|].
    unfold run_bfs_for_all_potential_target_nodes, run_bfs_with.
    by rewrite Hround.
  - intros search source_node zx distance max_distance attempts_per_distance
           overwrite occupied_coords flag found reported_length reported_path
           all_paths.
    unfold run_bfs_with.
    destruct (run_round_with _ _ _ _ _ _ _ _ _) as [rs| |] eqn:Hround;
      cbn [mbind outcome_bind]; try discriminate.
    intros [= <- <- <- <-]. exists rs. split; [done|].
    assert (Hok : round_keeps_first_shortest search source_node flag rs).
    { unfold run_round_with in Hround.
      pose proof (attempts_with_first search source_node flag zx distance
        max_distance overwrite
        (determine_grid_size source_node.1 (default (0, 0, 0) overwrite.1)
           (Some (remove_if_present source_node.1 occupied_coords)) 5)
        (Z.to_nat attempts_per_distance)
        (RoundState [] None false None None
           (remove_if_present source_node.1 occupied_coords) [])) as Hloop.
      rewrite Hround in Hloop. apply Hloop.
      repeat split; try done. intros len p. apply not_elem_of_nil. }
    destruct Hok as (Hlog & Hall & _ & Hbest).
    split; [done|]. split; [done|].
    destruct (round_length rs) as [shortest|].
    + destruct Hbest as (Hfound & before & after & Hsplit & Hbefore & Hafter).
      assert (Hin : (true, shortest, round_path rs) ∈ searches rs).
      { rewrite Hsplit, elem_of_app, elem_of_cons. right. by left. }
      split.
      * intros _. exists shortest. split; [done|]. split; [done|].
        split; [rewrite Hall; by apply (successful_paths_elem _ shortest)|].
        split; [|by exists before, after].
        intros len p. rewrite Hsplit, elem_of_app, elem_of_cons.
        intros [Hp|[[= -> _]|Hp]]; [|lia|by apply (Hafter _ p)].
        specialize (Hbefore _ _ Hp). lia.
      * rewrite Hfound. discriminate.
    + destruct Hbest as (Hfound & Hpath & Hnone). split.
      * rewrite Hfound. discriminate.
      * intros _. split; [done|]. split; [done|]. split; [|done].
        rewrite Hall. clear -Hnone.
        induction (searches rs) as [|[[[] len] p] log IH]; simpl; [done| |].
        -- destruct (Hnone len p). apply list_elem_of_here.
        -- apply IH. intros len' p' Hin. apply (Hnone len' p').
           by apply list_elem_of_further.
Qed.

End DriverAnySearch.

(** A round on an X target at (3, 0, 0) with [sample_search] for the search:
    the three kinds of the family give paths of 5, 2 and 2 steps. The driver
    reports the first of the two paths of 2 steps and lists all three. *)
Lemma run_bfs_reports_shortest_of_round_witness :
  run_bfs_with (U := sample_utils) sample_search ((0, 0, 0), "xxz") "X" 3 30 10
    (Some (3, 0, 0), None) [] false
  = Returns (true, Some 2, Some [((0, 0, 0), "xxz"); ((3, 0, 0), "xzx")],
             [Some [((0, 0, 0), "xxz"); ((3, 0, 0), "xxz")];
              Some [((0, 0, 0), "xxz"); ((3, 0, 0), "xzx")];
              Some [((0, 0, 0), "xxz"); ((3, 0, 0), "zxx")]])
  ∧ exists rs before after,
      run_round_with (U := sample_utils) sample_search ((0, 0, 0), "xxz") "X"
        3 30 10 (Some (3, 0, 0), None) [] false = Returns rs
      ∧ searches rs
        = before
          ++ (true, 2, Some [((0, 0, 0), "xxz"); ((3, 0, 0), "xzx")]) :: after
      ∧ (forall len p, (true, len, p) ∈ before -> 2 < len)
      ∧ (forall len p, (true, len, p) ∈ searches rs -> 2 ≤ len).
Proof.
  assert (Hrun :
    run_bfs_with (U := sample_utils) sample_search ((0, 0, 0), "xxz") "X" 3 30 10
      (Some (3, 0, 0), None) [] false
    = Returns (true, Some 2, Some [((0, 0, 0), "xxz"); ((3, 0, 0), "xzx")],
               [Some [((0, 0, 0), "xxz"); ((3, 0, 0), "xxz")];
                Some [((0, 0, 0), "xxz"); ((3, 0, 0), "xzx")];
                Some [((0, 0, 0), "xxz"); ((3, 0, 0), "zxx")]]))
    by (vm_compute; reflexivity).
  split; [exact Hrun|].
  destruct (proj2 (run_bfs_reports_shortest_of_round (U := sample_utils))
              sample_search ((0, 0, 0), "xxz") "X" 3 30 10 (Some (3, 0, 0), None)
              [] false _ _ _ _ Hrun)
    as (rs & Hround & _ & _ & Hfound & _).
  destruct (Hfound eq_refl)
    as (shortest & [= <-] & _ & _ & Hleast & before & after & Hsplit & Hbefore).
  by exists rs, before, after.
Defined.

(** * Further properties of the code *)

(** ** The bounding box *)

Lemma min_of_spec (x : Z) (l : list Z) :
  min_of x l ≤ x ∧ (forall y, y ∈ l -> min_of x l ≤ y) ∧ min_of x l ∈ x :: l.
Proof.
  unfold min_of. revert x. induction l as [|y l IH]; intros x; simpl.
  - split; [lia|]. split; [by intros y ?%elem_of_nil|apply list_elem_of_here].
  - destruct (IH (Z.min x y)) as (Hle & Hall & Hin). split; [lia|]. split.
    + intros y' [->|Hy']%elem_of_cons; [lia|by apply Hall].
    + apply elem_of_cons in Hin as [->|Hin].
      * destruct (Z.min_spec x y) as [[_ ->]|[_ ->]];
          [apply list_elem_of_here|apply list_elem_of_further, list_elem_of_here].
      * by do 2 apply list_elem_of_further.
Qed.

Lemma max_of_spec (x : Z) (l : list Z) :
  x ≤ max_of x l ∧ (forall y, y ∈ l -> y ≤ max_of x l) ∧ max_of x l ∈ x :: l.
Proof.
  unfold max_of. revert x. induction l as [|y l IH]; intros x; simpl.
  - split; [lia|]. split; [by intros y ?%elem_of_nil|apply list_elem_of_here].
  - destruct (IH (Z.max x y)) as (Hle & Hall & Hin). split; [lia|]. split.
    + intros y' [->|Hy']%elem_of_cons; [lia|by apply Hall].
    + apply elem_of_cons in Hin as [->|Hin].
      * destruct (Z.max_spec x y) as [[_ ->]|[_ ->]];
          [apply list_elem_of_further, list_elem_of_here|apply list_elem_of_here].
      * by do 2 apply list_elem_of_further.
Qed.

(** The least and the greatest value of one axis over the cells of the box. *)
Lemma axis_extremes (axis : Coord -> Z) (start_coords : Coord) (rest : list Coord) :
  (forall c, c ∈ start_coords :: rest ->
     min_of (axis start_coords) (map axis rest) ≤ axis c
     ∧ axis c ≤ max_of (axis start_coords) (map axis rest))
  ∧ (exists c, c ∈ start_coords :: rest
               ∧ axis c = min_of (axis start_coords) (map axis rest))
  ∧ (exists c, c ∈ start_coords :: rest
               ∧ axis c = max_of (axis start_coords) (map axis rest)).
Proof.
  destruct (min_of_spec (axis start_coords) (map axis rest)) as (Hmin & Hmins & Hmin_in).
  destruct (max_of_spec (axis start_coords) (map axis rest)) as (Hmax & Hmaxs & Hmax_in).
  assert (Hback : forall v, v ∈ axis start_coords :: map axis rest ->
                            exists c, c ∈ start_coords :: rest ∧ axis c = v).
  { intros v [->|Hv]%elem_of_cons.
    - exists start_coords. split; [apply list_elem_of_here|done].
    - apply list_elem_of_fmap in Hv as (c & -> & Hc).
      exists c. split; [by apply list_elem_of_further|done]. }
  split; [|split; by apply Hback].
  intros c [->|Hc]%elem_of_cons; [lia|].
  split; [apply Hmins|apply Hmaxs]; by apply list_elem_of_fmap_2.
Qed.

(** The source lies in the box, the margin away from each side. *)
Lemma determine_grid_size_encloses_start (start_coords end_coords : Coord)
    (obstacles : option (list Coord)) (margin : Z) :
  let '(min_x, max_x, min_y, max_y, min_z, max_z) :=
    determine_grid_size start_coords end_coords obstacles margin in
  min_x + margin ≤ cx start_coords ∧ cx start_coords ≤ max_x - margin
  ∧ min_y + margin ≤ cy start_coords ∧ cy start_coords ≤ max_y - margin
  ∧ min_z + margin ≤ cz start_coords ∧ cz start_coords ≤ max_z - margin.
Proof.
  unfold determine_grid_size.
  set (rest := match obstacles with
               | Some (c :: l) => [end_coords] ++ c :: l
               | _ => [end_coords]
               end).
  destruct (axis_extremes cx start_coords rest) as (Hx & _).
  destruct (axis_extremes cy start_coords rest) as (Hy & _).
  destruct (axis_extremes cz start_coords rest) as (Hz & _).
  specialize (Hx start_coords (list_elem_of_here _ _)).
  specialize (Hy start_coords (list_elem_of_here _ _)).
  specialize (Hz start_coords (list_elem_of_here _ _)).
  unfold cx, cy, cz in *. lia.
Qed.

(** X1. The box of [determine_grid_size] holds the source, the target and
    every obstacle with the margin to spare on all six sides, and it is the
    smallest such box: each of its six bounds is the coordinate of one of
    these cells moved out by the margin. An absent or empty obstacle list
    gives the box of source and target alone. *)
Theorem determine_grid_size_encloses (start_coords end_coords : Coord)
    (obstacles : option (list Coord)) (margin : Z) :
  let cells := start_coords :: end_coords :: default [] obstacles in
  let '(min_x, max_x, min_y, max_y, min_z, max_z) :=
    determine_grid_size start_coords end_coords obstacles margin in
  (forall c, c ∈ cells ->
     min_x + margin ≤ cx c ∧ cx c ≤ max_x - margin
     ∧ min_y + margin ≤ cy c ∧ cy c ≤ max_y - margin
     ∧ min_z + margin ≤ cz c ∧ cz c ≤ max_z - margin)
  ∧ (exists c, c ∈ cells ∧ cx c = min_x + margin)
  ∧ (exists c, c ∈ cells ∧ cx c = max_x - margin)
  ∧ (exists c, c ∈ cells ∧ cy c = min_y + margin)
  ∧ (exists c, c ∈ cells ∧ cy c = max_y - margin)
  ∧ (exists c, c ∈ cells ∧ cz c = min_z + margin)
  ∧ (exists c, c ∈ cells ∧ cz c = max_z - margin).
Proof.
  cbn zeta. unfold determine_grid_size.
  assert (Hrest : match obstacles with
                  | Some (c :: l) => [end_coords] ++ c :: l
                  | _ => [end_coords]
                  end = end_coords :: default [] obstacles)
    by (by destruct obstacles as [[|c l]|]).
  rewrite Hrest. set (rest := end_coords :: default [] obstacles).
  destruct (axis_extremes cx start_coords rest) as (Hx & (xl & Hxl & Hxl') & (xh & Hxh & Hxh')).
  destruct (axis_extremes cy start_coords rest) as (Hy & (yl & Hyl & Hyl') & (yh & Hyh & Hyh')).
  destruct (axis_extremes cz start_coords rest) as (Hz & (zl & Hzl & Hzl') & (zh & Hzh & Hzh')).
  unfold cx, cy, cz in *.
  split.
  { intros c Hc. specialize (Hx c Hc). specialize (Hy c Hc). specialize (Hz c Hc). lia. }
  repeat split; [exists xl|exists xh|exists yl|exists yh|exists zl|exists zh];
    (split; [done|lia]).
Qed.

(** ** The tentative target position *)

Section TargetPosition.
Context {U : Utils}.

Lemma first_free_Some (source_coords : Coord) (bounds : Z * Z * Z * Z * Z * Z)
    (obstacles candidates : list Coord) (t : Coord) :
  first_free source_coords bounds obstacles candidates = Some t ->
  t ∈ candidates ∧ candidate_ok source_coords bounds obstacles t.
Proof.
  unfold first_free, candidate_ok.
  destruct bounds as [[[[[min_x max_x] min_y] max_y] min_z] max_z].
  intros [Hin Hok]%find_some. split; [by apply list_elem_of_In|].
  destruct t as [[tx ty] tz]. unfold cx, cy, cz, py_in in *. cbn [fst snd].
  rewrite !andb_true_iff, !Z.leb_le, negb_true_iff, bool_decide_eq_false in Hok.
  tauto.
Qed.

Lemma first_free_None (source_coords : Coord) (bounds : Z * Z * Z * Z * Z * Z)
    (obstacles candidates : list Coord) :
  first_free source_coords bounds obstacles candidates = None <->
  forall c, c ∈ candidates -> ¬ candidate_ok source_coords bounds obstacles c.
Proof.
  split.
  - unfold first_free, candidate_ok.
    destruct bounds as [[[[[min_x max_x] min_y] max_y] min_z] max_z].
    intros Hnone c Hc%list_elem_of_In Hok.
    pose proof (find_none _ _ Hnone c Hc) as Hfalse.
    destruct c as [[tx ty] tz]. unfold cx, cy, cz, py_in in *. cbn [fst snd] in *.
    destruct Hok as (? & ? & ? & ? & ? & ? & Hfree & Hmove).
    rewrite Hmove, (bool_decide_eq_false_2 _ Hfree) in Hfalse.
    repeat (rewrite (proj2 (Z.leb_le _ _)) in Hfalse by done). discriminate.
  - intros Hnone.
    destruct (first_free _ _ _ _) as [t|] eqn:Hfound; [|done].
    apply first_free_Some in Hfound as [Hin Hok]. by destruct (Hnone t Hin).
Qed.

(** Solves [axes_moved s c = n] for [c] in an explicit list of offsets of [s]. *)
Ltac count_axes Hc :=
  simpl in Hc;
  repeat (apply elem_of_cons in Hc as [->|Hc]);
  [..|by apply elem_of_nil in Hc];
  unfold axes_moved, cx, cy, cz; cbn [fst snd];
  repeat case_bool_decide; lia.

Lemma level_1_axes (s c : Coord) :
  c ∈ potential_targets_level_1 s -> axes_moved s c = 1%nat.
Proof. destruct s as [[sx sy] sz]. intros Hc. count_axes Hc. Qed.

Lemma level_2_axes (s c : Coord) :
  c ∈ potential_targets_level_2 s -> axes_moved s c = 2%nat.
Proof. destruct s as [[sx sy] sz]. intros Hc. count_axes Hc. Qed.

Lemma level_3_axes (s c : Coord) :
  c ∈ potential_targets_level_3 s -> axes_moved s c = 3%nat.
Proof. destruct s as [[sx sy] sz]. intros Hc. count_axes Hc. Qed.

(** X2. Without an override, a position that
    [generate_tentative_target_position] returns lies inside the box, is
    not among the obstacles and is allowed as a move from the source (an
    absent obstacle list counts as empty). *)
Theorem generate_tentative_target_position_sound (source_node : Block)
    (bounds : Z * Z * Z * Z * Z * Z) (obstacles : option (list Coord)) (t : Coord) :
  generate_tentative_target_position source_node bounds obstacles None = Some t ->
  candidate_ok source_node.1 bounds (default [] obstacles) t.
Proof.
  unfold generate_tentative_target_position.
  destruct (first_free _ _ _ (potential_targets_level_1 _)) as [t1|] eqn:H1.
  { intros [= <-]. by apply first_free_Some in H1 as [_ ?]. }
  destruct (first_free _ _ _ (set_order _)) as [t2|] eqn:H2.
  { intros [= <-]. by apply first_free_Some in H2 as [_ ?]. }
  intros H3. by apply first_free_Some in H3 as [_ ?].
Qed.

(** X3. Without an override, [generate_tentative_target_position] gives up
    (returns [None]) exactly when none of the candidates of its three tiers
    is inside the box, off the obstacles and allowed as a move: it never
    gives up while a candidate is free. (The set of line 364 is taken to
    keep the elements of its list.) *)
Theorem generate_tentative_target_position_none_iff (source_node : Block)
    (bounds : Z * Z * Z * Z * Z * Z) (obstacles : option (list Coord)) :
  set_order_keeps_elements ->
  generate_tentative_target_position source_node bounds obstacles None = None
  <-> forall c, c ∈ all_candidates source_node.1 ->
                ¬ candidate_ok source_node.1 bounds (default [] obstacles) c.
Proof.
  intros Hset. unfold generate_tentative_target_position, all_candidates. split.
  - destruct (first_free _ _ _ (potential_targets_level_1 _)) eqn:H1; [done|].
    destruct (first_free _ _ _ (set_order _)) eqn:H2; [done|].
    intros H3 c. rewrite !elem_of_app. intros [Hc|[Hc|Hc]].
    + by apply (proj1 (first_free_None _ _ _ _) H1).
    + apply (proj1 (first_free_None _ _ _ _) H2). by apply (proj2 (Hset _ _)).
    + by apply (proj1 (first_free_None _ _ _ _) H3).
  - intros Hnone.
    rewrite (proj2 (first_free_None _ _ _ (potential_targets_level_1 _))).
    2:{ intros c Hc. apply Hnone. rewrite !elem_of_app. by left. }
    rewrite (proj2 (first_free_None _ _ _ (set_order _))).
    2:{ intros c Hc. apply (proj1 (Hset _ _)) in Hc. apply Hnone.
        rewrite !elem_of_app. right. by left. }
    apply first_free_None. intros c Hc. apply Hnone. rewrite !elem_of_app.
    right. by right.
Qed.

(** X4. Without an override, the position returned is a candidate of the
    lowest tier that has a free one: it differs from the source on at least
    one axis, and no free candidate differs from the source on fewer axes
    than it does ("favouring closer targets"). *)
Theorem generate_tentative_target_position_closest_tier (source_node : Block)
    (bounds : Z * Z * Z * Z * Z * Z) (obstacles : option (list Coord)) (t : Coord) :
  set_order_keeps_elements ->
  generate_tentative_target_position source_node bounds obstacles None = Some t ->
  t ∈ all_candidates source_node.1
  ∧ (1 ≤ axes_moved source_node.1 t)%nat
  ∧ forall c, c ∈ all_candidates source_node.1 ->
              candidate_ok source_node.1 bounds (default [] obstacles) c ->
              (axes_moved source_node.1 t ≤ axes_moved source_node.1 c)%nat.
Proof.
  intros Hset. unfold generate_tentative_target_position, all_candidates.
  assert (Haxes : forall c,
    c ∈ potential_targets_level_1 source_node.1
        ++ potential_targets_level_2 source_node.1
        ++ potential_targets_level_3 source_node.1 ->
    (1 ≤ axes_moved source_node.1 c)%nat).
  { intros c. rewrite !elem_of_app.
    intros [Hc%level_1_axes|[Hc%level_2_axes|Hc%level_3_axes]]; lia. }
  destruct (first_free _ _ _ (potential_targets_level_1 _)) as [t1|] eqn:H1.
  { intros [= <-]. apply first_free_Some in H1 as [Hin _].
    rewrite (level_1_axes _ _ Hin). split; [rewrite !elem_of_app; by left|].
    split; [lia|]. intros c Hc _. by apply Haxes. }
  pose proof (proj1 (first_free_None _ _ _ _) H1) as Hno1.
  destruct (first_free _ _ _ (set_order _)) as [t2|] eqn:H2.
  { intros [= <-]. apply first_free_Some in H2 as [Hin _].
    apply (proj1 (Hset _ _)) in Hin.
    rewrite (level_2_axes _ _ Hin).
    split; [rewrite !elem_of_app; right; by left|]. split; [lia|].
    intros c. rewrite !elem_of_app.
    intros [Hc|[Hc%level_2_axes|Hc%level_3_axes]] Hok; [|lia..].
    by destruct (Hno1 c Hc). }
  pose proof (proj1 (first_free_None _ _ _ _) H2) as Hno2.
  intros H3. apply first_free_Some in H3 as [Hin _].
  rewrite (level_3_axes _ _ Hin).
  split; [rewrite !elem_of_app; right; by right|]. split; [lia|].
  intros c. rewrite !elem_of_app.
  intros [Hc|[Hc|Hc%level_3_axes]] Hok; [| |lia].
  - by destruct (Hno1 c Hc).
  - destruct (Hno2 c); [by apply (proj2 (Hset _ _))|done].
Qed.

End TargetPosition.

Lemma sample_set_order_keeps_elements :
  set_order_keeps_elements (U := sample_utils).
Proof. intros l x. apply elem_of_remove_dups. Qed.

(** ** The cells a structure occupies *)

Lemma occupy_step_elem (structure : list (option Block)) (acc : gset Coord)
    (i : nat) (c : Coord) :
  c ∈ occupy_step structure acc i
  <-> c ∈ acc ∨ exists j, i = S j ∧ adds_cell structure j c.
Proof.
  unfold occupy_step, adds_cell. destruct i as [|j].
  { rewrite bool_decide_eq_false_2 by lia. split; [by left|].
    intros [?|(j & ? & _)]; [done|discriminate]. }
  rewrite bool_decide_eq_true_2 by lia.
  replace (S j - 1)%nat with j by lia.
  assert (Hback : forall P : Prop,
    (forall prev_coords prev_kind coords kind,
       structure !! j = Some (Some (prev_coords, prev_kind)) ->
       structure !! S j = Some (Some (coords, kind)) ->
       c = coords
       ∨ (str_has "o" kind = true ∧ extended_coords prev_coords coords = Some c) ->
       P) ->
    (exists j', S j = S j' ∧ exists prev_coords prev_kind coords kind,
       structure !! j' = Some (Some (prev_coords, prev_kind))
       ∧ structure !! S j' = Some (Some (coords, kind))
       ∧ (c = coords
          ∨ (str_has "o" kind = true ∧ extended_coords prev_coords coords = Some c))) ->
    P).
  { intros P HP (j' & [= <-] & pc & pk & cc & ck & Hp & Hc & Hcase). eauto. }
  destruct (structure !! S j) as [[[coords kind]|]|] eqn:Hcur;
    destruct (structure !! j) as [[[prev_coords prev_kind]|]|] eqn:Hprev;
    try (split; [by left|]; intros [?|Hadds]; [done|];
         apply (Hback _ ltac:(intros; congruence) Hadds)).
  assert (Hadds_iff :
    (exists j', S j = S j' ∧ exists prev_coords prev_kind coords kind,
       structure !! j' = Some (Some (prev_coords, prev_kind))
       ∧ structure !! S j' = Some (Some (coords, kind))
       ∧ (c = coords
          ∨ (str_has "o" kind = true ∧ extended_coords prev_coords coords = Some c)))
    <-> c = coords
        ∨ (str_has "o" kind = true ∧ extended_coords prev_coords coords = Some c)).
  { split.
    - apply Hback. intros pc pk cc ck Hp Hc Hcase.
      injection Hp as <- <-. injection Hc as <- <-. exact Hcase.
    - intros Hcase. exists j. split; [done|].
      exists prev_coords, prev_kind, coords, kind. by rewrite Hprev, Hcur. }
  rewrite Hadds_iff. clear Hadds_iff Hback.
  destruct (str_has "o" kind) eqn:Hkind;
    [destruct (extended_coords prev_coords coords) as [cell|] eqn:Hcell|];
    rewrite ?elem_of_union, ?elem_of_singleton; intuition congruence.
Qed.

Lemma occupy_fold_elem (structure : list (option Block)) (acc : gset Coord)
    (n : nat) (c : Coord) :
  c ∈ foldl (occupy_step structure) acc (seq 0 n)
  <-> c ∈ acc ∨ exists j, (S j < n)%nat ∧ adds_cell structure j c.
Proof.
  induction n as [|n IH].
  - simpl. split; [by left|]. intros [?|(j & ? & _)]; [done|lia].
  - rewrite seq_S, foldl_app. simpl. rewrite occupy_step_elem, IH. split.
    + intros [[?|(j & ? & ?)]|(j & -> & ?)]; [by left|right..];
        exists j; split; (done || lia).
    + intros [?|(j & Hj & Hadds)]; [by do 2 left|].
      destruct (decide (S j = n)) as [<-|?].
      * right. by exists j.
      * left. right. exists j. split; [lia|done].
Qed.

Lemma occupied_set_elem (structure : list (option Block)) (c : Coord) :
  c ∈ occupied_set structure
  <-> (exists kind, structure !! 0%nat = Some (Some (c, kind)))
      ∨ exists i, adds_cell structure i c.
Proof.
  unfold occupied_set. destruct structure as [|first_block rest] eqn:Hs.
  { split; [by intros ?%elem_of_empty|].
    intros [(? & ?)|(i & ? & ? & ? & ? & ? & _)]; discriminate. }
  rewrite <- Hs. rewrite occupy_fold_elem. split.
  - intros [Hfirst|(j & _ & Hadds)]; [left|right; by exists j].
    rewrite Hs. destruct first_block as [[coords kind]|].
    + apply elem_of_singleton in Hfirst as ->. by exists kind.
    + by apply elem_of_empty in Hfirst.
  - intros [(kind & Hfirst)|(j & Hadds)].
    + left. rewrite Hs in Hfirst. injection Hfirst as ->.
      by apply elem_of_singleton.
    + right. exists j. split; [|done].
      destruct Hadds as (? & ? & ? & ? & _ & Hcur & _).
      by apply lookup_lt_Some in Hcur.
Qed.

(** X5. A cell is in the list [get_coords_occupied_by_blocks] returns exactly
    when it is the coordinate of the first entry, or the coordinate of a
    later block that follows a block, or the cell beyond such a block when
    its kind holds an o. A block that follows an empty entry ([None]) adds
    nothing, and the empty structure gives the empty list. *)
Theorem get_coords_occupied_by_blocks_elem (structure : list (option Block))
    (c : Coord) :
  c ∈ get_coords_occupied_by_blocks structure
  <-> (exists kind, structure !! 0%nat = Some (Some (c, kind)))
      ∨ exists i, adds_cell structure i c.
Proof.
  unfold get_coords_occupied_by_blocks. rewrite elem_of_elements.
  apply occupied_set_elem.
Qed.

Lemma size_insert_le (x : Coord) (X : gset Coord) :
  (size ({[x]} ∪ X) ≤ S (size X))%nat.
Proof.
  rewrite size_union_alt, size_singleton.
  assert (Hsub : X ∖ {[x]} ⊆ X) by by apply subseteq_difference_l.
  pose proof (subseteq_size _ _ Hsub) as Hle. lia.
Qed.

Lemma occupy_fold_size (structure : list (option Block)) (acc : gset Coord)
    (n : nat) :
  (size (foldl (occupy_step structure) acc (seq 0 (S n))) ≤ size acc + 2 * n)%nat.
Proof.
  induction n as [|n IH].
  { cbn [seq foldl]. unfold occupy_step.
    rewrite bool_decide_eq_false_2 by lia. lia. }
  rewrite seq_S, foldl_app.
  set (before := foldl (occupy_step structure) acc (seq 0 (S n))) in *.
  cbn [foldl]. replace (0 + S n)%nat with (S n) by lia.
  assert (Hstep : (size (occupy_step structure before (S n)) ≤ 2 + size before)%nat).
  { unfold occupy_step. case_bool_decide; [|lia].
    destruct (structure !! S n) as [[[coords kind]|]|]; try lia.
    destruct (structure !! (S n - 1)%nat) as [[[prev_coords prev_kind]|]|]; try lia.
    pose proof (size_insert_le coords before).
    destruct (str_has "o" kind); [|lia].
    destruct (extended_coords prev_coords coords) as [cell|]; [|lia].
    pose proof (size_insert_le cell ({[coords]} ∪ before)). lia. }
  lia.
Qed.

(** X6. For a structure without empty entries, the list
    [get_coords_occupied_by_blocks] returns holds the coordinate of every
    block. For every structure the list has no cell twice, and it has at
    most two cells per entry. *)
Theorem get_coords_occupied_by_blocks_covers (structure : list (option Block)) :
  (forall blocks block,
     structure = Some <$> blocks -> block ∈ blocks ->
     block.1 ∈ get_coords_occupied_by_blocks structure)
  ∧ NoDup (get_coords_occupied_by_blocks structure)
  ∧ (length (get_coords_occupied_by_blocks structure) ≤ 2 * length structure)%nat.
Proof.
  split; [|split].
  - intros blocks [coords kind] -> Hin. cbn [fst].
    unfold get_coords_occupied_by_blocks. rewrite elem_of_elements, occupied_set_elem.
    apply list_elem_of_lookup in Hin as [i Hi]. destruct i as [|i].
    + left. exists kind. rewrite list_lookup_fmap. apply fmap_Some. eauto.
    + right. exists i.
      destruct (blocks !! i) as [[prev_coords prev_kind]|] eqn:Hprev.
      * exists prev_coords, prev_kind, coords, kind.
        rewrite !list_lookup_fmap.
        split; [apply fmap_Some; eauto|]. split; [apply fmap_Some; eauto|].
        by left.
      * apply lookup_ge_None in Hprev. apply lookup_lt_Some in Hi.
        unfold Block in *. lia.
  - apply (NoDup_elements (occupied_set structure)).
  - unfold get_coords_occupied_by_blocks.
    change (length (elements (occupied_set structure)))
      with (size (occupied_set structure)).
    unfold occupied_set. destruct structure as [|first_block rest] eqn:Hs.
    + rewrite size_empty. lia.
    + rewrite <- Hs.
      pose proof (occupy_fold_size structure
        (match first_block with
         | Some (first_block_coords, _) => {[first_block_coords]}
         | None => ∅
         end) (length rest)) as Hsize.
      assert (Hfirst : (size (match first_block with
                              | Some (first_block_coords, _) =>
                                  ({[first_block_coords]} : gset Coord)
                              | None => ∅
                              end) ≤ 1)%nat).
      { destruct first_block as [[? ?]|];
          [by rewrite size_singleton|rewrite size_empty; lia]. }
      rewrite Hs in *. simpl length in *. lia.
Qed.


(** ** The face check and the oracle, further *)

Lemma check_face_match_same_position (a : Coord) (kindA kindB : string) :
  check_face_match a kindA a kindB = Raises ValueError.
Proof.
  unfold check_face_match. destruct a as [[x y] z]. simpl.
  by rewrite !Z.sub_diag.
Qed.

Lemma check_face_match_returns (a b : Coord) (kindA kindB : string) :
  a ≠ b -> exists answer, check_face_match a kindA b kindB = Returns answer.
Proof.
  intros Hne. unfold check_face_match.
  destruct a as [[x y] z], b as [[x' y'] z']; simpl.
  destruct (Z.eqb_spec (x' - x) 0); simpl; [|destruct (negb _); eauto].
  destruct (Z.eqb_spec (y' - y) 0); simpl; [|destruct (negb _); eauto].
  destruct (Z.eqb_spec (z' - z) 0); simpl; [|destruct (negb _); eauto].
  exfalso. apply Hne. f_equal; [f_equal|]; lia.
Qed.

(** X8. [check_face_match] raises [ValueError] exactly when the two
    coordinates are equal (no axis of displacement to find); on different
    coordinates it returns a boolean, and every kind matches itself. *)
Theorem check_face_match_raises_iff (a b : Coord) (kindA kindB : string) :
  (check_face_match a kindA b kindB = Raises ValueError <-> a = b)
  ∧ (a ≠ b ->
     (exists answer, check_face_match a kindA b kindB = Returns answer)
     ∧ check_face_match a kindA b kindA = Returns true).
Proof.
  split.
  - split; [|intros ->; apply check_face_match_same_position].
    intros Hraises. destruct (decide (a = b)) as [|Hne]; [done|].
    destruct (check_face_match_returns a b kindA kindB Hne) as [answer Hret].
    congruence.
  - intros Hne. split; [by apply check_face_match_returns|].
    destruct (check_face_match_returns a b kindA kindA Hne) as [answer Hret].
    rewrite Hret. f_equal. revert Hret. unfold check_face_match.
    destruct (list_index true _) as [idx| |]; simpl; try discriminate.
    rewrite String.eqb_refl. simpl. congruence.
Qed.

Lemma ascii_lower_idem (c : ascii) : ascii_lower (ascii_lower c) = ascii_lower c.
Proof. destruct c as [[] [] [] [] [] [] [] []]; reflexivity. Qed.

Lemma str_lower_idem (s : string) : str_lower (str_lower s) = str_lower s.
Proof. induction s as [|c s IH]; simpl; [done|]. by rewrite ascii_lower_idem, IH. Qed.

Lemma str_lower_app (s t : string) :
  str_lower (s +:+ t) = str_lower s +:+ str_lower t.
Proof. induction s as [|c s IH]; simpl; [done|]. by rewrite IH. Qed.

Lemma str_lower_length (s : string) : String.length (str_lower s) = String.length s.
Proof. induction s as [|c s IH]; simpl; [done|]. by rewrite IH. Qed.

Lemma str_take_app (s t : string) : str_take (String.length s) (s +:+ t) = str_take (String.length s) s.
Proof. induction s as [|c s IH]; simpl; [by destruct t|]. by rewrite IH. Qed.

(** X9. On kinds of three ASCII symbols the face check looks at those three
    symbols only and not at their case: a marker appended to the kind (the
    h of a Hadamard pipe; any string) and a change of the kind to lower
    case leave its answer as it is. *)
Theorem check_face_match_ignores_marker_and_case (a b : Coord)
    (kindA kindB markerA markerB : string) :
  is_ascii kindA = true -> is_ascii kindB = true ->
  String.length kindA = 3%nat -> String.length kindB = 3%nat ->
  check_face_match a (kindA +:+ markerA) b (kindB +:+ markerB)
  = check_face_match a kindA b kindB
  ∧ check_face_match a (str_lower kindA) b (str_lower kindB)
    = check_face_match a kindA b kindB.
Proof.
  intros _ _ HA HB. unfold check_face_match. split.
  - rewrite !str_lower_app.
    pose proof (str_take_app (str_lower kindA) (str_lower markerA)) as HtA.
    pose proof (str_take_app (str_lower kindB) (str_lower markerB)) as HtB.
    rewrite str_lower_length, HA in HtA. rewrite str_lower_length, HB in HtB.
    by rewrite HtA, HtB.
  - by rewrite !str_lower_idem.
Qed.

Section OracleFurther.
Context {U : Utils}.

Lemma check_cube_match_sym (p1 : Coord) (k1 : string) (p2 : Coord) (k2 : string) :
  check_cube_match p1 k1 p2 k2 = check_cube_match p2 k2 p1 k1.
Proof.
  unfold check_cube_match.
  by destruct (check_is_exit p1 _ p2), (check_is_exit p2 _ p1).
Qed.

Lemma get_valid_next_kinds_elem (p1 : Coord) (k1 : string) (p2 : Coord)
    (kinds : list string) (k2 : string) :
  get_valid_next_kinds p1 k1 p2 = Returns kinds ->
  k2 ∈ kinds <->
  k2 ∈ (if str_has "o" k1 then all_cube_kinds else all_pipe_kinds)
  ∧ check_cube_match p1 k1 p2 k2 = true
  ∧ check_face_match p1 k1 p2 k2 = Returns true.
Proof.
  unfold get_valid_next_kinds. intros Hret.
  destruct (str_has "o" k1); apply keep_face_matches_filter in Hret as ->;
    rewrite !list_elem_of_filter; tauto.
Qed.

(** X10. A legal edge can be walked back. When the oracle offers [k2] at
    [p2] for a block of a known kind [k1] at [p1], then asked from [p2]
    with [k2] it returns, and offers [k1] at [p1]. *)
Theorem get_valid_next_kinds_reversible (p1 : Coord) (k1 : string) (p2 : Coord)
    (k2 : string) (kinds : list string) :
  k1 ∈ all_cube_kinds ++ all_pipe_kinds ->
  get_valid_next_kinds p1 k1 p2 = Returns kinds ->
  k2 ∈ kinds ->
  exists back, get_valid_next_kinds p2 k2 p1 = Returns back ∧ k1 ∈ back.
Proof.
  intros Hknown Hret Hin.
  apply (get_valid_next_kinds_elem _ _ _ _ k2 Hret) in Hin as (Hfam & Hcube & Hface).
  assert (Hne : p2 ≠ p1).
  { intros ->. rewrite check_face_match_same_position in Hface. discriminate. }
  destruct (keep_face_matches_returns p2 k2 p1
              (if str_has "o" k2
               then filter (fun k => check_cube_match p2 k2 p1 k = true) all_cube_kinds
               else filter (fun k => check_cube_match p2 k2 p1 k = true) all_pipe_kinds)
              Hne) as [back Hback].
  assert (Hback' : get_valid_next_kinds p2 k2 p1 = Returns back).
  { unfold get_valid_next_kinds. by destruct (str_has "o" k2). }
  exists back. split; [done|].
  apply (get_valid_next_kinds_elem _ _ _ _ k1 Hback').
  rewrite <- check_cube_match_sym, <- check_face_match_sym.
  split; [|done].
  assert (Hcubes : Forall (fun k => str_has "o" k = false) all_cube_kinds)
    by (repeat constructor).
  assert (Hpipes : Forall (fun k => str_has "o" k = true) all_pipe_kinds)
    by (repeat constructor).
  rewrite Forall_forall in Hcubes, Hpipes.
  apply elem_of_app in Hknown as [Hk1|Hk1].
  - rewrite (Hcubes _ Hk1) in Hfam. by rewrite (Hpipes _ Hfam).
  - rewrite (Hpipes _ Hk1) in Hfam. by rewrite (Hcubes _ Hfam).
Qed.

(** X11. Asked for the kinds at the position of the current block itself,
    [get_valid_next_kinds] returns the empty list when no kind of the
    family passes the exit check, and raises [ValueError] (from the face
    check) as soon as one does. *)
Theorem get_valid_next_kinds_same_position (p : Coord) (kind : string) :
  let family := if str_has "o" kind then all_cube_kinds else all_pipe_kinds in
  (Forall (fun k => check_cube_match p kind p k = false) family ->
   get_valid_next_kinds p kind p = Returns [])
  ∧ (Exists (fun k => check_cube_match p kind p k = true) family ->
     get_valid_next_kinds p kind p = Raises ValueError).
Proof.
  cbn zeta.
  assert (Hrun : get_valid_next_kinds p kind p
    = keep_face_matches p kind p
        (filter (fun k => check_cube_match p kind p k = true)
                (if str_has "o" kind then all_cube_kinds else all_pipe_kinds))).
  { unfold get_valid_next_kinds. by destruct (str_has "o" kind). }
  rewrite Hrun. split.
  - intros Hnone.
    destruct (filter _ _) as [|k rest] eqn:Hfilter; [done|].
    assert (Hk : k ∈ filter (fun k => check_cube_match p kind p k = true)
                   (if str_has "o" kind then all_cube_kinds else all_pipe_kinds))
      by (rewrite Hfilter; apply list_elem_of_here).
    apply list_elem_of_filter in Hk as [Hyes Hk].
    rewrite Forall_forall in Hnone. rewrite (Hnone _ Hk) in Hyes. discriminate.
  - intros (k & Hk & Hyes)%Exists_exists.
    destruct (filter _ _) as [|k' rest] eqn:Hfilter.
    + assert (Hin : k ∈ filter (fun k => check_cube_match p kind p k = true)
                     (if str_has "o" kind then all_cube_kinds else all_pipe_kinds))
        by (by apply list_elem_of_filter).
      rewrite Hfilter in Hin. by apply elem_of_nil in Hin.
    + simpl. by rewrite check_face_match_same_position.
Qed.

End OracleFurther.

(** ** The search, further *)

Lemma NoDup_occurrences (c : Coord) (l : list Coord) :
  NoDup l -> (occurrences c l ≤ 1)%nat.
Proof.
  induction 1 as [|y l Hy _ IH]; simpl; [lia|].
  destruct (decide (c = y)) as [->|]; [|lia].
  assert (occurrences y l = 0%nat); [|lia].
  destruct (occurrences y l) eqn:Hocc; [done|].
  exfalso. apply Hy, elem_of_occurrences. lia.
Qed.

Section SearchFurther.
Context {U : Utils}.

(** On a list that holds no cell twice, taking the endpoints out beforehand
    changes nothing for the search. *)
Lemma bfs_extended_3d_without_endpoints (fuel : nat) (source_node target_node : Block)
    (l : list Coord) (flag : bool) (c : Coord) :
  NoDup l -> c = source_node.1 ∨ c = target_node.1 ->
  (bfs_extended_3d fuel source_node target_node l flag).1
  = (bfs_extended_3d fuel source_node target_node (without c l) flag).1.
Proof.
  intros Hnodup Hc. apply bfs_extended_3d_agree. intros x Hx.
  apply py_in_occurrences.
  rewrite !occurrences_without_endpoints, occurrences_without.
  pose proof (NoDup_occurrences x l Hnodup).
  rewrite (decide_False (P := x = source_node.1)) by done.
  destruct Hc as [->| ->].
  - by rewrite (decide_False (P := x = source_node.1)) by done.
  - destruct (decide (x = target_node.1)); [lia|done].
Qed.

(** X12. An obstacle list made by [get_coords_occupied_by_blocks] holds no
    cell twice, so on such a list the search fully ignores its endpoints:
    the result is the same as on the list with the source coordinate taken
    out, and the same as on the list with the target coordinate taken out. *)
Theorem bfs_extended_3d_on_occupied_cells (fuel : nat)
    (source_node target_node : Block) (structure : list (option Block))
    (flag : bool) :
  let obstacles := get_coords_occupied_by_blocks structure in
  (bfs_extended_3d fuel source_node target_node obstacles flag).1
  = (bfs_extended_3d fuel source_node target_node
       (without source_node.1 obstacles) flag).1
  ∧ (bfs_extended_3d fuel source_node target_node obstacles flag).1
    = (bfs_extended_3d fuel source_node target_node
         (without target_node.1 obstacles) flag).1.
Proof.
  cbn zeta.
  assert (Hnodup : NoDup (get_coords_occupied_by_blocks structure))
    by apply (NoDup_elements (occupied_set structure)).
  split; apply bfs_extended_3d_without_endpoints; auto.
Qed.

Lemma expand_pipe_step (source_node : Block) (forbidden : list Coord)
    (current : Block) (current_type : string) (st : search_state)
    (here : list Block) (move : Coord) :
  path st !! current = Some here ->
  str_has "o" current_type = true ->
  neighbour current.1 move ∉ map fst here ->
  expand source_node forbidden current 2 (current_type, st) move
  = if py_in (neighbour current.1 move) forbidden
    then Returns (current_type, st) else Raises TypeError.
Proof.
  intros Hpath Ho Hoff. unfold expand, neighbour, cx, cy, cz in *.
  destruct current as [[[x y] z] kind], move as [[dx dy] dz]. cbn [fst snd] in *.
  unfold subscript. rewrite Hpath. cbn [mbind outcome_bind].
  rewrite Ho. cbn [andb Z.eqb Pos.eqb]. rewrite !Z.mul_1_r.
  rewrite (bool_decide_eq_false_2 _ Hoff : py_in _ (map fst here) = false).
  cbn [orb]. destruct (py_in _ forbidden); [done|].
  by destruct (str_has "h" current_type).
Qed.

Lemma for_each_expand_pipe (source_node : Block) (forbidden : list Coord)
    (current : Block) (current_type : string) (st : search_state)
    (here : list Block) (moves : list Coord) :
  path st !! current = Some here ->
  str_has "o" current_type = true ->
  (forall move, move ∈ moves -> neighbour current.1 move ∉ map fst here) ->
  for_each (expand source_node forbidden current 2) moves (current_type, st)
  = if forallb (fun move => py_in (neighbour current.1 move) forbidden) moves
    then Returns (current_type, st) else Raises TypeError.
Proof.
  intros Hpath Ho. induction moves as [|move moves IH]; intros Hoff; [done|].
  cbn [for_each forallb].
  rewrite (expand_pipe_step _ _ _ _ _ here) by
    (try done; apply Hoff, list_elem_of_here).
  destruct (py_in _ forbidden); [|done]. cbn [mbind outcome_bind andb].
  apply IH. intros m Hm. by apply Hoff, list_elem_of_further.
Qed.

Lemma neighbour_off_source (c move : Coord) :
  move ∈ spatial_moves -> neighbour c move ∉ [c].
Proof.
  destruct c as [[x y] z]. unfold spatial_moves. intros Hmove.
  repeat (apply elem_of_cons in Hmove as [->|Hmove]);
    [..|by apply elem_of_nil in Hmove];
    unfold neighbour, cx, cy, cz; cbn [fst snd];
    intros Heq%list_elem_of_singleton; injection Heq; lia.
Qed.

(** X13. The three outcomes of the search, for every input and any positive
    loop bound. A source that passes the goal test (target on its
    coordinate, of kind ["ooo"] or of its own kind) gives success with
    length 0 and the source alone as path. Otherwise a pipe whose six
    neighbouring cells are all obstacles gives the failure
    [(False, -1, None)], and every other source raises [TypeError] at the
    oracle call of its first open direction. *)
Theorem bfs_extended_3d_outcomes (fuel : nat) (source_node target_node : Block)
    (forbidden_cords : list Coord) (flag : bool) :
  let result :=
    (bfs_extended_3d (S fuel) source_node target_node forbidden_cords flag).1 in
  (source_is_goal source_node target_node ->
   result = Returns (true, 0, Some [source_node]))
  ∧ (¬ source_is_goal source_node target_node ->
     walled_in source_node target_node forbidden_cords ->
     result = Returns (false, -1, None))
  ∧ (¬ source_is_goal source_node target_node ->
     ¬ walled_in source_node target_node forbidden_cords ->
     result = Raises TypeError).
Proof.
  destruct source_node as [start_coords source_kind].
  destruct target_node as [end_coords end_type].
  unfold source_is_goal, walled_in, bfs_extended_3d. cbn [fst snd].
  rewrite (bfs_while_step _ _ _ _ _ _ _ start_coords source_kind []) by reflexivity.
  pose proof (manhattan_nonneg start_coords end_coords) as Hd.
  destruct (Z.ltb_spec (6 * manhattan start_coords end_coords)
                       (manhattan start_coords end_coords)) as [Hlt|_]; [lia|].
  destruct (bool_decide (start_coords = end_coords)
            && (bool_decide (end_type = "ooo")
                || bool_decide (source_kind = end_type))) eqn:Hgoal.
  { apply andb_true_iff in Hgoal as [Hc Hk].
    apply bool_decide_eq_true_1 in Hc. apply orb_true_iff in Hk.
    rewrite !bool_decide_eq_true in Hk.
    unfold subscript. cbn [path path_length with_queue initial_state].
    rewrite !lookup_singleton_eq. split; [done|]. split; intros Hnot; by destruct Hnot. }
  assert (Hnot : ¬ (start_coords = end_coords
                    ∧ (end_type = "ooo" ∨ source_kind = end_type))).
  { intros [Hc Hk]. apply andb_false_iff in Hgoal as [Hgoal|Hgoal].
    - by apply bool_decide_eq_false_1 in Hgoal.
    - apply orb_false_iff in Hgoal as [H1 H2].
      apply bool_decide_eq_false_1 in H1. apply bool_decide_eq_false_1 in H2. tauto. }
  split; [by intros ?|].
  destruct (str_has "o" source_kind) eqn:Ho.
  - rewrite (for_each_expand_pipe (start_coords, source_kind) _
               (start_coords, source_kind) source_kind
               (with_queue [] (initial_state (start_coords, source_kind) flag))
               [(start_coords, source_kind)] spatial_moves
               (lookup_singleton_eq _ _) Ho
               (fun m Hm => neighbour_off_source start_coords m Hm)).
    destruct (forallb _ spatial_moves) eqn:Hwalls.
    + split; [intros _ _; by destruct fuel|].
      intros _ Hopen. destruct Hopen. split; [done|].
      intros move Hmove. rewrite forallb_forall in Hwalls.
      specialize (Hwalls move (proj1 (list_elem_of_In _ _) Hmove)).
      by apply bool_decide_eq_true_1 in Hwalls.
    + split; [|done]. intros _ [_ Hwalled]. exfalso.
      apply not_true_iff_false in Hwalls. apply Hwalls.
      apply forallb_forall. intros move Hmove%list_elem_of_In.
      apply bool_decide_eq_true_2. by apply Hwalled.
  - rewrite (for_each_expand_cube_raises (start_coords, source_kind) _
               (start_coords, source_kind) source_kind
               (with_queue [] (initial_state (start_coords, source_kind) flag))
               [(start_coords, source_kind)] (lookup_singleton_eq _ _) Ho).
    split; [|done]. by intros _ [? _].
Qed.

(** X14. The search needs one turn of its loop and no more: with one unit
    of fuel it already returns or raises, and any larger loop bound gives
    the same result and leaves the same obstacle list. *)
Theorem bfs_extended_3d_terminates (fuel : nat) (source_node target_node : Block)
    (forbidden_cords : list Coord) (flag : bool) :
  bfs_extended_3d (S fuel) source_node target_node forbidden_cords flag
  = bfs_extended_3d 1 source_node target_node forbidden_cords flag
  ∧ (bfs_extended_3d 1 source_node target_node forbidden_cords flag).1 ≠ OutOfFuel.
Proof.
  split; [apply bfs_extended_3d_one_iteration|].
  apply (bfs_extended_3d_one_iteration 0).
Qed.

End SearchFurther.

(** ** The driver, further *)

Section DriverFurther.
Context {U : Utils}.

Lemma run_round_ok (fuel : nat) (source_node : Block) (zx : string)
    (distance max_distance attempts_per_distance : Z)
    (overwrite : option Coord * option string) (occupied_coords : list Coord)
    (flag : bool) (rs : round_state) :
  run_round fuel source_node zx distance max_distance attempts_per_distance
            overwrite occupied_coords flag = Returns rs ->
  round_ok fuel source_node flag rs.
Proof.
  unfold run_round. intros Hround.
  pose proof (attempts_ok fuel source_node flag zx distance max_distance overwrite
    (determine_grid_size source_node.1 (default (0, 0, 0) overwrite.1)
       (Some (remove_if_present source_node.1 occupied_coords)) 5)
    (Z.to_nat attempts_per_distance)
    (RoundState [] None false None None
       (remove_if_present source_node.1 occupied_coords) [])) as Hloop.
  rewrite Hround in Hloop. apply Hloop.
  repeat split; try done. intros len p. apply not_elem_of_nil.
Qed.

Lemma successful_paths_from (log : list search_result) (q : option (list Block)) :
  q ∈ successful_paths log -> exists len, (true, len, q) ∈ log.
Proof.
  induction log as [|[[[] len] p] log IH]; simpl.
  - by intros ?%elem_of_nil.
  - intros [->|Hq]%elem_of_cons.
    + exists len. apply list_elem_of_here.
    + destruct (IH Hq) as [len' ?]. exists len'. by apply list_elem_of_further.
  - intros Hq. destruct (IH Hq) as [len' ?]. exists len'.
    by apply list_elem_of_further.
Qed.

(** X15. When the distance asked for exceeds the maximum, or the number of
    attempts is zero or negative, the driver runs no search at all and
    returns [(False, None, None, [])]. *)
Theorem run_bfs_runs_no_search (fuel : nat) (source_node : Block) (zx : string)
    (distance max_distance attempts_per_distance : Z)
    (overwrite : option Coord * option string) (occupied_coords : list Coord)
    (flag : bool) :
  max_distance < distance ∨ attempts_per_distance ≤ 0 ->
  run_bfs_for_all_potential_target_nodes fuel source_node zx distance max_distance
    attempts_per_distance overwrite occupied_coords flag
  = Returns (false, None, None, [])
  ∧ exists rs,
      run_round fuel source_node zx distance max_distance attempts_per_distance
                overwrite occupied_coords flag = Returns rs
      ∧ searches rs = [].
Proof.
  intros Hskip. unfold run_bfs_for_all_potential_target_nodes, run_round.
  set (rs0 := RoundState [] None false None None
                (remove_if_present source_node.1 occupied_coords) []).
  assert (Hloop : forall bounds,
    attempts fuel source_node zx distance max_distance overwrite bounds flag
             (Z.to_nat attempts_per_distance) rs0 = Returns rs0).
  { intros bounds. destruct (Z.to_nat attempts_per_distance) as [|n] eqn:Hn; [done|].
    destruct Hskip as [Hfar|Hnone]; [|lia].
    simpl. by rewrite (proj2 (Z.ltb_lt _ _) Hfar). }
  rewrite Hloop. split; [done|]. by exists rs0.
Qed.

(** X16. Whenever the driver reports success, the length it reports is 0,
    the path it reports is the source block alone, and so is every path in
    its list of all paths: as the search expands no state, the driver never
    reports a path with an edge. *)
Theorem run_bfs_reports_only_the_source (fuel : nat) (source_node : Block)
    (zx : string) (distance max_distance attempts_per_distance : Z)
    (overwrite : option Coord * option string) (occupied_coords : list Coord)
    (flag : bool) (reported_length : option Z)
    (reported_path : option (list Block))
    (all_paths : list (option (list Block))) :
  run_bfs_for_all_potential_target_nodes fuel source_node zx distance max_distance
    attempts_per_distance overwrite occupied_coords flag
  = Returns (true, reported_length, reported_path, all_paths) ->
  reported_length = Some 0
  ∧ reported_path = Some [source_node]
  ∧ all_paths ≠ []
  ∧ forall q, q ∈ all_paths -> q = Some [source_node].
Proof.
  unfold run_bfs_for_all_potential_target_nodes.
  destruct (run_round _ _ _ _ _ _ _ _ _) as [rs| |] eqn:Hround;
    cbn [mbind outcome_bind]; try discriminate.
  intros [= Hfound <- <- <-].
  apply run_round_ok in Hround as (Hlog & Hall & _ & Hbest).
  assert (Htrivial : forall len q, (true, len, q) ∈ searches rs ->
                                   len = 0 ∧ q = Some [source_node]).
  { intros len q Hin. rewrite Forall_forall in Hlog.
    destruct (Hlog _ Hin) as (target_node & obstacles & Hsearch).
    destruct (proj1 (bfs_extended_3d_first_iteration fuel source_node target_node
                       obstacles flag) len q Hsearch) as (? & ? & _).
    done. }
  destruct (round_length rs) as [shortest|].
  - destruct Hbest as (_ & Hin & _).
    destruct (Htrivial _ _ Hin) as [-> ->].
    split; [done|]. split; [done|]. split.
    + rewrite Hall. intros Hempty.
      apply (successful_paths_elem _ 0) in Hin. rewrite Hempty in Hin.
      by apply elem_of_nil in Hin.
    + intros q Hq. rewrite Hall in Hq.
      apply successful_paths_from in Hq as [len Hq].
      by destruct (Htrivial _ _ Hq).
  - destruct Hbest as (Hnone & _). congruence.
Qed.

End DriverFurther.

(** ** The driver's bookkeeping and its position generator, further *)

Section Bookkeeping.
Context {U : Utils}.

(** X17. Of the successful results it is given, the bookkeeping of lines
    120-127 keeps the first one of least length: every success before it is
    strictly longer and none after it is shorter. It lists the paths of all
    successes in order, and keeps nothing when there is no success. *)
Theorem keep_shortest_keeps_first_minimum (candidates : list search_result)
    (obstacles : list Coord) :
  let rs := keep_all candidates (empty_round obstacles) in
  all_paths_from_round rs = successful_paths candidates
  ∧ min_path_length rs = round_length rs
  ∧ match round_length rs with
    | None =>
        path_found rs = false ∧ round_path rs = None
        ∧ forall len p, (true, len, p) ∉ candidates
    | Some shortest =>
        path_found rs = true
        ∧ exists before after,
            candidates = before ++ (true, shortest, round_path rs) :: after
            ∧ (forall len p, (true, len, p) ∈ before -> shortest < len)
            ∧ (forall len p, (true, len, p) ∈ after -> shortest ≤ len)
    end.
Proof.
  cbn zeta. unfold keep_all.
  induction candidates as [|[[found len] p] candidates IH] using rev_ind.
  { simpl. repeat split. intros len p. apply not_elem_of_nil. }
  rewrite foldl_app. cbn [foldl].
  set (rs := foldl (fun rs candidate => keep_shortest candidate rs)
                   (empty_round obstacles) candidates) in *.
  destruct IH as (Hall & Hmin & Hbest).
  unfold keep_shortest. rewrite successful_paths_app. cbn [successful_paths].
  destruct found; cbn [all_paths_from_round min_path_length round_length
                       round_path path_found].
  - rewrite Hall. split; [done|]. rewrite Hmin.
    destruct (round_length rs) as [shortest|] eqn:Hlen.
    + destruct Hbest as (Hfound & before & after & Hsplit & Hbefore & Hafter).
      destruct (Z.ltb_spec len shortest) as [Hlt|Hge].
      * split; [done|]. split; [done|].
        exists candidates, []. split; [done|]. split; [|by intros ? ? ?%elem_of_nil].
        intros len' p'. rewrite Hsplit, elem_of_app, elem_of_cons.
        intros [Hin|[[= -> _]|Hin]]; [|lia|].
        -- specialize (Hbefore _ _ Hin). lia.
        -- specialize (Hafter _ _ Hin). lia.
      * split; [done|]. split; [done|].
        exists before, (after ++ [(true, len, p)]).
        split; [by rewrite Hsplit, <- app_assoc|]. split; [done|].
        intros len' p'. rewrite elem_of_app, list_elem_of_singleton.
        intros [Hin|[= -> _]]; [by apply (Hafter _ p')|lia].
    + destruct Hbest as (_ & _ & Hnone).
      split; [done|]. split; [done|].
      exists candidates, []. split; [done|]. split; [|by intros ? ? ?%elem_of_nil].
      intros len' p' Hin. by destruct (Hnone _ _ Hin).
  - rewrite app_nil_r. split; [done|]. split; [done|].
    destruct (round_length rs) as [shortest|].
    + destruct Hbest as (Hfound & before & after & Hsplit & Hbefore & Hafter).
      split; [done|]. exists before, (after ++ [(false, len, p)]).
      split; [by rewrite Hsplit, <- app_assoc|]. split; [done|].
      intros len' p'. rewrite elem_of_app, list_elem_of_singleton.
      intros [Hin|[=]]. by apply (Hafter _ p').
    + destruct Hbest as (Hfound & Hpath & Hnone).
      split; [done|]. split; [done|].
      intros len' p'. rewrite elem_of_app, list_elem_of_singleton.
      intros [Hin|[=]]. by destruct (Hnone _ _ Hin).
Qed.

Lemma generate_tentative_target_types_nonempty (zx : string) (o : option string) :
  generate_tentative_target_types zx o ≠ [].
Proof.
  unfold generate_tentative_target_types.
  destruct o as [[|c k]|]; try done; repeat case_bool_decide; done.
Qed.

Lemma try_target_type_raises (fuel : nat) (source_node : Block) (position : Coord)
    (flag : bool) (rs : round_state) (kind : string) :
  position ≠ source_node.1 -> str_has "o" source_node.2 = false ->
  try_target_type (S fuel) source_node position flag rs kind = Raises TypeError.
Proof.
  intros Hcoords Ho. unfold try_target_type.
  pose proof (proj2 (bfs_extended_3d_first_iteration (S fuel) source_node
                       (position, kind) (obstacle_coords rs) flag)) as Hraises.
  destruct (bfs_extended_3d (S fuel) source_node (position, kind)
              (obstacle_coords rs) flag) as [result obstacles].
  cbn [fst snd] in Hraises. rewrite Hraises; [done|done|done|].
  intros [Heq _]. by apply Hcoords.
Qed.

(** X18. The driver does not catch what the search raises. With at least
    one attempt to make, a distance within the maximum, an override target
    that is not on the source coordinate and a source without an o in its
    kind, the driver raises [TypeError]: its first search does. *)
Theorem run_bfs_raises_for_cube_source (fuel : nat) (source_node : Block)
    (zx : string) (distance max_distance attempts_per_distance : Z)
    (target_coords : Coord) (target_kind : option string)
    (occupied_coords : list Coord) (flag : bool) :
  distance ≤ max_distance -> 0 < attempts_per_distance ->
  target_coords ≠ source_node.1 -> str_has "o" source_node.2 = false ->
  run_bfs_for_all_potential_target_nodes (S fuel) source_node zx distance
    max_distance attempts_per_distance (Some target_coords, target_kind)
    occupied_coords flag
  = Raises TypeError.
Proof.
  intros Hnear Hsome Hcoords Ho.
  unfold run_bfs_for_all_potential_target_nodes, run_round.
  destruct (Z.to_nat attempts_per_distance) as [|n] eqn:Hn; [lia|].
  cbn [attempts path_found orb fst snd].
  rewrite (proj2 (Z.ltb_ge _ _) Hnear). cbn [orb generate_tentative_target_position].
  destruct (generate_tentative_target_types zx _) as [|kind kinds] eqn:Hkinds;
    [by apply generate_tentative_target_types_nonempty in Hkinds|].
  cbn [for_each]. by rewrite try_target_type_raises.
Qed.

(** X19. The families of [generate_tentative_target_types] and the kinds the
    oracle tries are the same kinds: the cube kinds are the X and Z
    families, the pipe kinds are the SIMPLE and HADAMARD families. The
    boundary kind ["ooo"] is none of them, so [get_valid_next_kinds] never
    returns it. *)
Theorem oracle_kinds_are_the_families (p1 : Coord) (k1 : string) (p2 : Coord)
    (kinds : list string) (k : string) :
  (k ∈ all_cube_kinds
   <-> k ∈ generate_tentative_target_types "X" None
       ∨ k ∈ generate_tentative_target_types "Z" None)
  ∧ (k ∈ all_pipe_kinds
     <-> k ∈ generate_tentative_target_types "SIMPLE" None
         ∨ k ∈ generate_tentative_target_types "HADAMARD" None)
  ∧ (get_valid_next_kinds p1 k1 p2 = Returns kinds -> k ∈ kinds ->
     (k ∉ generate_tentative_target_types "O" None)
     ∧ (k ∈ all_cube_kinds ∨ k ∈ all_pipe_kinds)).
Proof.
  assert (HX : generate_tentative_target_types "X" None = ["xxz"; "xzx"; "zxx"])
    by reflexivity.
  assert (HZ : generate_tentative_target_types "Z" None = ["xzz"; "zzx"; "zxz"])
    by reflexivity.
  assert (HS : generate_tentative_target_types "SIMPLE" None
               = ["zxo"; "xzo"; "oxz"; "ozx"; "xoz"; "zox"]) by reflexivity.
  assert (HH : generate_tentative_target_types "HADAMARD" None
               = ["zxoh"; "xzoh"; "oxzh"; "ozxh"; "xozh"; "zoxh"]) by reflexivity.
  assert (HO : generate_tentative_target_types "O" None = ["ooo"]) by reflexivity.
  rewrite HX, HZ, HS, HH, HO. unfold all_cube_kinds, all_pipe_kinds.
  split; [|split].
  - split.
    + intros Hk. repeat (apply elem_of_cons in Hk as [->|Hk]);
        [..|by apply elem_of_nil in Hk];
        first [left; by in_explicit_list | right; by in_explicit_list].
    + intros [Hk|Hk]; repeat (apply elem_of_cons in Hk as [->|Hk]);
        (by in_explicit_list) || by apply elem_of_nil in Hk.
  - split.
    + intros Hk. repeat (apply elem_of_cons in Hk as [->|Hk]);
        [..|by apply elem_of_nil in Hk];
        first [left; by in_explicit_list | right; by in_explicit_list].
    + intros [Hk|Hk]; repeat (apply elem_of_cons in Hk as [->|Hk]);
        (by in_explicit_list) || by apply elem_of_nil in Hk.
  - intros Hret Hin.
    apply (get_valid_next_kinds_elem _ _ _ _ k Hret) in Hin as (Hfam & _ & _).
    assert (Hkind : k ∈ all_cube_kinds ∨ k ∈ all_pipe_kinds)
      by (destruct (str_has "o" k1); tauto).
    split; [|done]. intros ->%list_elem_of_singleton.
    unfold all_cube_kinds, all_pipe_kinds in Hkind.
    destruct Hkind as [Hkind|Hkind];
      repeat (apply elem_of_cons in Hkind as [Hkind|Hkind]; [discriminate|]);
      by apply elem_of_nil in Hkind.
Qed.

Lemma candidates_within_three (s c : Coord) :
  c ∈ all_candidates s ->
  cx s - 3 ≤ cx c ∧ cx c ≤ cx s + 3 ∧ cy s - 3 ≤ cy c ∧ cy c ≤ cy s + 3
  ∧ cz s - 3 ≤ cz c ∧ cz c ≤ cz s + 3.
Proof.
  destruct s as [[sx sy] sz]. unfold all_candidates. intros Hc. simpl in Hc.
  repeat (apply elem_of_cons in Hc as [->|Hc]); [..|by apply elem_of_nil in Hc];
    unfold cx, cy, cz; cbn [fst snd]; lia.
Qed.

(** X20. With a margin of 3 or more (the driver uses 5), the box of
    [determine_grid_size] never rules out a candidate of the position
    generator: a candidate of any tier is acceptable exactly when it is off
    the obstacles and allowed as a move. *)
Theorem candidates_inside_grid (start_coords end_coords : Coord)
    (grid_obstacles : option (list Coord)) (margin : Z)
    (obstacles : list Coord) (c : Coord) :
  3 ≤ margin ->
  c ∈ all_candidates start_coords ->
  candidate_ok start_coords
    (determine_grid_size start_coords end_coords grid_obstacles margin) obstacles c
  <-> (c ∉ obstacles) ∧ is_move_allowed start_coords c = true.
Proof.
  intros Hmargin Hc. apply candidates_within_three in Hc.
  pose proof (determine_grid_size_encloses_start start_coords end_coords
                grid_obstacles margin) as Hbox.
  destruct (determine_grid_size _ _ _ _)
    as [[[[[min_x max_x] min_y] max_y] min_z] max_z].
  unfold candidate_ok. split; [tauto|]. intros [? ?].
  repeat split; try done; lia.
Qed.

End Bookkeeping.

(** ** The further properties on concrete inputs

    The runs below use [sample_utils] for the outside helpers. *)

(** The cell three steps along x is taken: the next candidate of the first
    tier is returned. *)
Lemma generate_tentative_target_position_sound_witness :
  generate_tentative_target_position (U := sample_utils) ((0, 0, 0), "xxz")
    (-5, 5, -5, 5, -5, 5) (Some [(3, 0, 0)]) None = Some (-3, 0, 0)
  ∧ candidate_ok (U := sample_utils) (0, 0, 0) (-5, 5, -5, 5, -5, 5)
      [(3, 0, 0)] (-3, 0, 0).
Proof.
  assert (Hrun : generate_tentative_target_position (U := sample_utils)
                   ((0, 0, 0), "xxz") (-5, 5, -5, 5, -5, 5) (Some [(3, 0, 0)]) None
                 = Some (-3, 0, 0)) by (vm_compute; reflexivity).
  split; [exact Hrun|].
  exact (generate_tentative_target_position_sound (U := sample_utils)
           ((0, 0, 0), "xxz") (-5, 5, -5, 5, -5, 5) (Some [(3, 0, 0)])
           (-3, 0, 0) Hrun).
Defined.

(** A box too small for any candidate: the generator gives up. *)
Lemma generate_tentative_target_position_none_iff_witness :
  set_order_keeps_elements (U := sample_utils)
  ∧ generate_tentative_target_position (U := sample_utils) ((0, 0, 0), "xxz")
      (-1, 1, -1, 1, -1, 1) None None = None
  ∧ forall c, c ∈ all_candidates (0, 0, 0) ->
              ¬ candidate_ok (U := sample_utils) (0, 0, 0) (-1, 1, -1, 1, -1, 1) [] c.
Proof.
  split; [exact sample_set_order_keeps_elements|].
  assert (Hrun : generate_tentative_target_position (U := sample_utils)
                   ((0, 0, 0), "xxz") (-1, 1, -1, 1, -1, 1) None None = None)
    by (vm_compute; reflexivity).
  split; [exact Hrun|].
  exact (proj1 (generate_tentative_target_position_none_iff (U := sample_utils)
                  ((0, 0, 0), "xxz") (-1, 1, -1, 1, -1, 1) None
                  sample_set_order_keeps_elements) Hrun).
Defined.

(** The six candidates of the first tier are taken: a candidate of the
    second tier is returned. *)
Lemma generate_tentative_target_position_closest_tier_witness :
  generate_tentative_target_position (U := sample_utils) ((0, 0, 0), "xxz")
    (-5, 5, -5, 5, -5, 5)
    (Some [(3, 0, 0); (-3, 0, 0); (0, 3, 0); (0, -3, 0); (0, 0, 3); (0, 0, -3)])
    None = Some (-3, -3, 0)
  ∧ axes_moved (0, 0, 0) (-3, -3, 0) = 2%nat
  ∧ forall c, c ∈ all_candidates (0, 0, 0) ->
      candidate_ok (U := sample_utils) (0, 0, 0) (-5, 5, -5, 5, -5, 5)
        [(3, 0, 0); (-3, 0, 0); (0, 3, 0); (0, -3, 0); (0, 0, 3); (0, 0, -3)] c ->
      le (axes_moved (0, 0, 0) (-3, -3, 0)) (axes_moved (0, 0, 0) c).
Proof.
  assert (Hrun : generate_tentative_target_position (U := sample_utils)
    ((0, 0, 0), "xxz") (-5, 5, -5, 5, -5, 5)
    (Some [(3, 0, 0); (-3, 0, 0); (0, 3, 0); (0, -3, 0); (0, 0, 3); (0, 0, -3)])
    None = Some (-3, -3, 0)) by (vm_compute; reflexivity).
  split; [exact Hrun|]. split; [reflexivity|].
  exact (proj2 (proj2 (generate_tentative_target_position_closest_tier
    (U := sample_utils) ((0, 0, 0), "xxz") (-5, 5, -5, 5, -5, 5)
    (Some [(3, 0, 0); (-3, 0, 0); (0, 3, 0); (0, -3, 0); (0, 0, 3); (0, 0, -3)])
    (-3, -3, 0) sample_set_order_keeps_elements Hrun))).
Defined.


Lemma check_face_match_ignores_marker_and_case_witness :
  is_ascii "XXZ" = true ∧ is_ascii "OXZ" = true
  ∧ check_face_match (0, 0, 0) "XXZ" (1, 0, 0) "OXZh"
    = check_face_match (0, 0, 0) "XXZ" (1, 0, 0) "OXZ"
  ∧ check_face_match (0, 0, 0) "xxz" (1, 0, 0) "oxz"
    = check_face_match (0, 0, 0) "XXZ" (1, 0, 0) "OXZ".
Proof.
  split; [reflexivity|]. split; [reflexivity|].
  exact (check_face_match_ignores_marker_and_case (0, 0, 0) (1, 0, 0)
           "XXZ" "OXZ" "" "h" eq_refl eq_refl eq_refl eq_refl).
Defined.

Lemma get_valid_next_kinds_reversible_witness :
  get_valid_next_kinds (U := sample_utils) (0, 0, 0) "xxz" (1, 0, 0)
  = Returns ["oxz"; "oxzh"]
  ∧ exists back,
      get_valid_next_kinds (U := sample_utils) (1, 0, 0) "oxzh" (0, 0, 0)
      = Returns back
      ∧ "xxz" ∈ back.
Proof.
  assert (Hrun : get_valid_next_kinds (U := sample_utils) (0, 0, 0) "xxz" (1, 0, 0)
                 = Returns ["oxz"; "oxzh"]) by reflexivity.
  split; [exact Hrun|].
  apply (get_valid_next_kinds_reversible (U := sample_utils) (0, 0, 0) "xxz"
           (1, 0, 0) "oxzh" ["oxz"; "oxzh"]).
  - unfold all_cube_kinds, all_pipe_kinds. cbn [app]. by in_explicit_list.
  - exact Hrun.
  - by in_explicit_list.
Defined.

Lemma run_bfs_runs_no_search_witness :
  run_bfs_for_all_potential_target_nodes (U := sample_utils) 8
    ((0, 0, 0), "xxz") "X" 31 30 10 (None, None) [(0, 0, 3)] false
  = Returns (false, None, None, []).
Proof.
  apply (run_bfs_runs_no_search (U := sample_utils) 8 ((0, 0, 0), "xxz") "X"
           31 30 10 (None, None) [(0, 0, 3)] false).
  left. lia.
Defined.

Lemma run_bfs_reports_only_the_source_witness :
  run_bfs_for_all_potential_target_nodes (U := sample_utils) 8
    ((1, 1, 1), "zxz") "O" 3 30 10 (Some (1, 1, 1), None) [(1, 1, 2)] false
  = Returns (true, Some 0, Some [((1, 1, 1), "zxz")], [Some [((1, 1, 1), "zxz")]])
  ∧ forall q, q ∈ [Some [((1, 1, 1), "zxz")]] -> q = Some [((1, 1, 1), "zxz")].
Proof.
  assert (Hrun : run_bfs_for_all_potential_target_nodes (U := sample_utils) 8
    ((1, 1, 1), "zxz") "O" 3 30 10 (Some (1, 1, 1), None) [(1, 1, 2)] false
    = Returns (true, Some 0, Some [((1, 1, 1), "zxz")],
               [Some [((1, 1, 1), "zxz")]])) by (vm_compute; reflexivity).
  split; [exact Hrun|].
  exact (proj2 (proj2 (proj2 (run_bfs_reports_only_the_source (U := sample_utils)
    8 ((1, 1, 1), "zxz") "O" 3 30 10 (Some (1, 1, 1), None) [(1, 1, 2)] false
    (Some 0) (Some [((1, 1, 1), "zxz")]) [Some [((1, 1, 1), "zxz")]] Hrun)))).
Defined.

Lemma run_bfs_raises_for_cube_source_witness :
  run_bfs_for_all_potential_target_nodes (U := sample_utils) 8
    ((0, 0, 0), "xxz") "O" 3 30 10 (Some (3, 0, 0), Some "ooo") [] false
  = Raises TypeError.
Proof.
  apply (run_bfs_raises_for_cube_source (U := sample_utils) 7 ((0, 0, 0), "xxz")
           "O" 3 30 10 (3, 0, 0) (Some "ooo") [] false).
  - lia.
  - lia.
  - discriminate.
  - reflexivity.
Defined.

Lemma candidates_inside_grid_witness :
  (3, 0, -3) ∈ all_candidates (0, 0, 0)
  ∧ (candidate_ok (U := sample_utils) (0, 0, 0)
       (determine_grid_size (0, 0, 0) (0, 0, 0) (Some [(1, 0, 0)]) 5)
       [(1, 0, 0)] (3, 0, -3)
     <-> ((3, 0, -3) ∉ [(1, 0, 0)])
         ∧ is_move_allowed (Utils := sample_utils) (0, 0, 0) (3, 0, -3) = true).
Proof.
  assert (Hin : (3, 0, -3) ∈ all_candidates (0, 0, 0)).
  { unfold all_candidates. cbn. by in_explicit_list. }
  split; [exact Hin|].
  apply (candidates_inside_grid (U := sample_utils) (0, 0, 0) (0, 0, 0)
           (Some [(1, 0, 0)]) 5 [(1, 0, 0)] (3, 0, -3)); [lia|exact Hin].
Defined.
